(** * kodi_next_up: the polling entity and its card view

    A shallow embedding of [custom_components/kodi_next_up/entities.py]:
    the dynamically typed values the entity handles, the fragment of the
    Python runtime the entity calls into (truthiness, subscripting,
    [str.format], [round], [urllib.parse], [json.dumps]), the entity itself
    ([KodiMediaEntity] and [KodiNextUpTVEntity]) and the properties of the
    update-and-transform pipeline. *)

From Stdlib Require Import ZArith List String Ascii Bool Lia.
From Stdlib Require Import SpecFloat DecimalString.
Import ListNotations.
Open Scope Z_scope.

Set Warnings "-register-all".

(** ** Python values *)

(** A Python [str] is a sequence of Unicode code points. *)
Definition pystr := list Z.

(** An ASCII literal of the source, as a [pystr]. *)
Definition lit (s : string) : pystr :=
  map (fun a => Z.of_nat (nat_of_ascii a)) (list_ascii_of_string s).

Fixpoint pystr_eqb (a b : pystr) : bool :=
  match a, b with
  | [], [] => true
  | x :: a', y :: b' => (x =? y) && pystr_eqb a' b'
  | _, _ => false
  end.

(** The values a decoded JSON-RPC response is made of.  A [float] is an IEEE
    binary64 number ([spec_float] at precision 53, maximal exponent 1024); a
    [dict] keeps its items in insertion order, keys being strings. *)
Inductive PyVal : Type :=
| PNone
| PBool (b : bool)
| PInt (z : Z)
| PFloat (f : spec_float)
| PStr (s : pystr)
| PList (l : list PyVal)
| PDict (d : list (pystr * PyVal)).

(** The exceptions the modelled code can raise or let through. *)
Inductive PyExc : Type :=
| KeyError
| IndexError
| TypeError
| AttributeError
| ValueError
| OverflowError
| UnicodeEncodeError
| BaseExceptionOther.   (* CancelledError, KeyboardInterrupt, ... *)

(** The outcome of an expression: a value, or a raised exception. *)
Inductive Res (A : Type) : Type :=
| Ok (a : A)
| Raise (e : PyExc).
Arguments Ok {A} a.
Arguments Raise {A} e.

Definition bind {A B} (r : Res A) (k : A -> Res B) : Res B :=
  match r with
  | Ok a => k a
  | Raise e => Raise e
  end.

Notation "x <- c1 ;; c2" := (bind c1 (fun x => c2))
  (at level 61, c1 at next level, right associativity).

Fixpoint mapM {A B} (f : A -> Res B) (l : list A) : Res (list B) :=
  match l with
  | [] => Ok []
  | x :: l' => y <- f x ;; ys <- mapM f l' ;; Ok (y :: ys)
  end.

Definition raises {A} (r : Res A) : bool :=
  match r with Ok _ => false | Raise _ => true end.

(** ** The runtime: truthiness, dictionaries, subscripting *)

Definition float_is_zero (f : spec_float) : bool :=
  match f with S754_zero _ => true | _ => false end.

(** [bool(v)] *)
Definition truthy (v : PyVal) : bool :=
  match v with
  | PNone => false
  | PBool b => b
  | PInt z => negb (z =? 0)
  | PFloat f => negb (float_is_zero f)
  | PStr s => match s with [] => false | _ => true end
  | PList l => match l with [] => false | _ => true end
  | PDict d => match d with [] => false | _ => true end
  end.

Fixpoint assoc (k : pystr) (d : list (pystr * PyVal)) : option PyVal :=
  match d with
  | [] => None
  | (k', v) :: d' => if pystr_eqb k' k then Some v else assoc k d'
  end.

(** [v.get(k, default)]: only a [dict] has the method. *)
Definition py_get (v : PyVal) (k : pystr) (default : PyVal) : Res PyVal :=
  match v with
  | PDict d => Ok (match assoc k d with Some x => x | None => default end)
  | _ => Raise AttributeError
  end.

(** [v[k]] for a string key [k]. *)
Definition py_getitem (v : PyVal) (k : pystr) : Res PyVal :=
  match v with
  | PDict d => match assoc k d with Some x => Ok x | None => Raise KeyError end
  | _ => Raise TypeError
  end.

(** [t[i]] on a tuple. *)
Definition tuple_index (t : list PyVal) (i : nat) : Res PyVal :=
  match nth_error t i with
  | Some x => Ok x
  | None => Raise IndexError
  end.

(** [iter(v)]: the elements a [for] loop visits. *)
Definition py_iter (v : PyVal) : Res (list PyVal) :=
  match v with
  | PList l => Ok l
  | PDict d => Ok (map (fun kv => PStr (fst kv)) d)
  | PStr s => Ok (map (fun c => PStr [c]) s)
  | _ => Raise TypeError
  end.

(** The [%d] conversion of the [%] operator accepts a number only, and a
    float only when it has an integer part. *)
Definition percent_d_check (v : PyVal) : Res unit :=
  match v with
  | PInt _ | PBool _ => Ok tt
  | PFloat S754_nan => Raise ValueError
  | PFloat (S754_infinity _) => Raise OverflowError
  | PFloat _ => Ok tt
  | _ => Raise TypeError
  end.

(** ** Logging *)

Inductive LogLevel : Type := DEBUG | WARNING | ERROR | EXCEPTION.

(** A record keeps the format string and its arguments; the rendered text is
    not modelled. *)
Record LogRecord : Type := mkLog {
  log_level : LogLevel;
  log_format : pystr;
  log_args : list PyVal
}.

(** ** The entity *)

Inductive HealthState : Type := STATE_ON | STATE_OFF | STATE_PROBLEM | STATE_UNKNOWN.

(** Modelled from the spec: [KodiConfig] is declared in [types.py], which is
    not among the sources; the spec gives it a host, a port, a TLS flag and
    an optional user name and password. *)
Record KodiConfig : Type := mkConfig {
  cfg_host : pystr;
  cfg_port : Z;
  cfg_ssl : bool;
  cfg_username : option pystr;
  cfg_password : option pystr
}.

(** What awaiting [kodi.call_method] can do. *)
Inductive CallOutcome : Type :=
| Returned (result : PyVal)
| RaisedProtocolError (args : list PyVal)
| RaisedTransportError
| RaisedException          (* any other subclass of [Exception] *)
| RaisedBaseException.     (* not a subclass of [Exception] *)

(** The connection handle, as one update sees it. *)
Record Kodi : Type := mkKodi {
  connected : bool;
  call_method : pystr -> list pystr -> CallOutcome
}.

(** The instance: the fields [__init__] sets, and the class attributes a
    subclass fixes. *)
Record Entity : Type := mkEntity {
  data : PyVal;
  _state : option HealthState;
  base_web_url : pystr;
  entity_id : PyVal;
  properties : list pystr;
  result_key : pystr;
  update_method : pystr
}.

Definition set_state (s : HealthState) (self : Entity) : Entity :=
  mkEntity (data self) (Some s) (base_web_url self) (entity_id self)
           (properties self) (result_key self) (update_method self).

Definition set_data (d : PyVal) (self : Entity) : Entity :=
  mkEntity d (_state self) (base_web_url self) (entity_id self)
           (properties self) (result_key self) (update_method self).

(** A method that may write the instance, log, and raise: it returns the
    instance as it leaves it, the records it logged and its outcome. *)
Record Run (A : Type) : Type := mkRun {
  after : Entity;
  logged : list LogRecord;
  outcome : Res A
}.
Arguments mkRun {A} after logged outcome.
Arguments after {A} r.
Arguments logged {A} r.
Arguments outcome {A} r.

(** [state] *)
Definition state (self : Entity) : option HealthState := _state self.

(** ** Rendering integers *)

(** [str(n)] for an [int]. *)
Definition str_of_int (n : Z) : pystr :=
  lit (NilZero.string_of_int (Z.to_int n)).

(** ** [KodiMediaEntity] *)

(** [__init__]; the class attributes come from the subclass. *)
Definition init (config : KodiConfig)
    (cls_properties : list pystr) (cls_result_key cls_update_method : pystr)
    : Entity :=
  let protocol := if cfg_ssl config then lit "https" else lit "http" in
  let auth :=
    match cfg_username config, cfg_password config with
    | Some username, Some password => username ++ lit ":" ++ password ++ lit "@"
    | _, _ => []
    end in
  mkEntity (PList []) None
    (protocol ++ lit "://" ++ auth ++ cfg_host config ++ lit ":"
       ++ str_of_int (cfg_port config) ++ lit "/image/image%3A%2F%2F")
    PNone cls_properties cls_result_key cls_update_method.

Definition list_of_str (l : list pystr) : PyVal := PList (map PStr l).

(** [_handle_result] *)
Definition _handle_result (self : Entity) (result : PyVal) : Run unit :=
  match py_get result (lit "error") PNone with
  | Raise e => mkRun self [] (Raise e)
  | Ok error =>
    if truthy error then
      match (code <- py_get error (lit "code") PNone ;;
             message <- py_get error (lit "message") PNone ;;
             _ <- percent_d_check code ;;
             Ok [PStr (result_key self); code; message]) with
      | Raise e => mkRun self [] (Raise e)
      | Ok args =>
        mkRun (set_state STATE_PROBLEM self)
              [mkLog ERROR (lit "Error while fetching %s: [%d] %s") args]
              (Ok tt)
      end
    else
      match py_get result (result_key self) (PList []) with
      | Raise e => mkRun self [] (Raise e)
      | Ok new_data =>
        if negb (truthy new_data) then
          mkRun (set_state STATE_UNKNOWN self)
                [mkLog WARNING
                   (lit "No %s found after requesting data from Kodi, assuming empty.")
                   [PStr (result_key self)]]
                (Ok tt)
        else
          mkRun (set_state STATE_ON (set_data new_data self)) [] (Ok tt)
      end
  end.

(** The tail of [async_update], after the [try] statement: [result] is what
    the call returned, or [None] when it raised. *)
Definition after_try (self : Entity) (logs : list LogRecord) (result : PyVal)
    : Run unit :=
  if truthy result then
    let r := _handle_result self result in
    mkRun (after r) (logs ++ logged r) (outcome r)
  else
    mkRun (set_state STATE_OFF self) logs (Ok tt).

(** The payload the [ProtocolError] handler reads: [exc.args[2]["error"]]. *)
Definition protocol_error_payload (args : list PyVal) : Res PyVal :=
  a <- tuple_index args 2 ;; py_getitem a (lit "error").

(** [async_update], against the connection as it is during this call. *)
Definition async_update (kodi : Kodi) (self : Entity) : Run unit :=
  if negb (connected kodi) then
    mkRun self [mkLog DEBUG (lit "Kodi is not connected, skipping update.") []]
          (Ok tt)
  else
    let call_args :=
      [entity_id self; PStr (update_method self); list_of_str (properties self)] in
    match call_method kodi (update_method self) (properties self) with
    | Returned result => after_try self [] result
    | RaisedProtocolError args =>
      match protocol_error_payload args with
      | Raise e => mkRun self [] (Raise e)
      | Ok error =>
        after_try self
          [mkLog ERROR (lit "Run API method %s.%s(%s) error: %s")
                 (call_args ++ [error])]
          PNone
      end
    | RaisedTransportError =>
      after_try self
        [mkLog DEBUG (lit "TransportError trying to run API method %s.%s(%s)")
               call_args]
        PNone
    | RaisedException =>
      after_try (set_state STATE_OFF self)
        [mkLog EXCEPTION (lit "Error updating sensor, is kodi running?") []]
        PNone
    | RaisedBaseException => mkRun self [] (Raise BaseExceptionOther)
    end.

(** ** [KodiNextUpTVEntity] *)

Definition tv_properties : list pystr :=
  [lit "art"; lit "episode"; lit "fanart"; lit "firstaired"; lit "playcount";
   lit "rating"; lit "runtime"; lit "season"; lit "showtitle"; lit "title"].

Definition tv_update_method : pystr := lit "VideoLibrary.GetTVShows".

Definition tv_result_key : pystr := lit "tvshows".

(** [KodiNextUpTVEntity(kodi, config)] *)
Definition KodiNextUpTVEntity (config : KodiConfig) : Entity :=
  init config tv_properties tv_result_key tv_update_method.

(** ** Strings *)

(** [s.lower()].  Outside ASCII the case table of the Unicode database is
    left out: the entity only tests the result against the ASCII prefix
    ["http"], and no code point outside ASCII lowers to one of its letters. *)
Definition lower_cp (c : Z) : Z :=
  if (65 <=? c) && (c <=? 90) then c + 32 else c.

Definition lower (s : pystr) : pystr := map lower_cp s.

(** [s.startswith(prefix)] *)
Fixpoint startswith (s prefix : pystr) {struct prefix} : bool :=
  match prefix, s with
  | [], _ => true
  | p :: prefix', c :: s' => (c =? p) && startswith s' prefix'
  | _ :: _, [] => false
  end.

(** [s.lstrip(ch)] for a single character. *)
Fixpoint lstrip (ch : Z) (s : pystr) : pystr :=
  match s with
  | c :: s' => if c =? ch then lstrip ch s' else s
  | [] => []
  end.

(** [s.strip(ch)] for a single character. *)
Definition strip (ch : Z) (s : pystr) : pystr :=
  rev (lstrip ch (rev (lstrip ch s))).

(** [s.rjust(width, fill)], which is what the format spec [fill>width] does
    to an already rendered field. *)
Definition rjust (width : nat) (fill : Z) (s : pystr) : pystr :=
  repeat fill (width - List.length s)%nat ++ s.

Definition slash : Z := 47.
Definition percent : Z := 37.

(** ** [urllib.parse] *)

(** [s.encode("utf-8")] with [errors="strict"]: a surrogate cannot be
    encoded. *)
Definition utf8_encode_cp (c : Z) : Res (list Z) :=
  if c <? 128 then Ok [c]
  else if c <? 2048 then Ok [192 + c / 64; 128 + c mod 64]
  else if (55296 <=? c) && (c <=? 57343) then Raise UnicodeEncodeError
  else if c <? 65536 then
    Ok [224 + c / 4096; 128 + (c / 64) mod 64; 128 + c mod 64]
  else
    Ok [240 + c / 262144; 128 + (c / 4096) mod 64; 128 + (c / 64) mod 64;
        128 + c mod 64].

Fixpoint utf8_encode (s : pystr) : Res (list Z) :=
  match s with
  | [] => Ok []
  | c :: s' => bs <- utf8_encode_cp c ;; rest <- utf8_encode s' ;; Ok (bs ++ rest)
  end.

(** The decoder's state between two bytes: how many continuation bytes are
    still due, the code point so far, and the range the next byte must lie
    in. *)
Record Utf8State : Type := mkUtf8 {
  u_need : Z;
  u_cp : Z;
  u_lo : Z;
  u_hi : Z
}.

Definition utf8_idle : Utf8State := mkUtf8 0 0 128 191.

Definition replacement_character : Z := 65533.

(** A byte met while no sequence is open. *)
Definition utf8_start (b : Z) : pystr * Utf8State :=
  if b <? 128 then ([b], utf8_idle)
  else if (194 <=? b) && (b <=? 223) then ([], mkUtf8 1 (b - 192) 128 191)
  else if b =? 224 then ([], mkUtf8 2 (b - 224) 160 191)
  else if b =? 237 then ([], mkUtf8 2 (b - 224) 128 159)
  else if (225 <=? b) && (b <=? 239) then ([], mkUtf8 2 (b - 224) 128 191)
  else if b =? 240 then ([], mkUtf8 3 (b - 240) 144 191)
  else if b =? 244 then ([], mkUtf8 3 (b - 240) 128 143)
  else if (241 <=? b) && (b <=? 243) then ([], mkUtf8 3 (b - 240) 128 191)
  else ([replacement_character], utf8_idle).

Definition utf8_step (st : Utf8State) (b : Z) : pystr * Utf8State :=
  if u_need st =? 0 then utf8_start b
  else if (u_lo st <=? b) && (b <=? u_hi st) then
    let cp := u_cp st * 64 + (b - 128) in
    if u_need st =? 1 then ([cp], utf8_idle)
    else ([], mkUtf8 (u_need st - 1) cp 128 191)
  else
    let '(out, st') := utf8_start b in
    (replacement_character :: out, st').

(** [bs.decode("utf-8", "replace")]: every maximal ill-formed part becomes
    one U+FFFD. *)
Fixpoint utf8_decode_from (st : Utf8State) (bs : list Z) : pystr :=
  match bs with
  | [] => if u_need st =? 0 then [] else [replacement_character]
  | b :: bs' =>
    let '(out, st') := utf8_step st b in
    out ++ utf8_decode_from st' bs'
  end.

Definition utf8_decode (bs : list Z) : pystr := utf8_decode_from utf8_idle bs.

Definition hex_value (c : Z) : option Z :=
  if (48 <=? c) && (c <=? 57) then Some (c - 48)
  else if (65 <=? c) && (c <=? 70) then Some (c - 55)
  else if (97 <=? c) && (c <=? 102) then Some (c - 87)
  else None.

(** [unquote_to_bytes] on an ASCII string: [%xx] with two hexadecimal digits
    is one byte, any other [%] stands for itself. *)
Fixpoint unquote_to_bytes (s : pystr) : list Z :=
  match s with
  | [] => []
  | c :: rest =>
    if c =? percent then
      match rest with
      | h1 :: h2 :: rest' =>
        match hex_value h1, hex_value h2 with
        | Some a, Some b => (16 * a + b) :: unquote_to_bytes rest'
        | _, _ => c :: unquote_to_bytes rest
        end
      | _ => c :: unquote_to_bytes rest
      end
    else c :: unquote_to_bytes rest
  end.

(** The loop of [unquote]: the string is cut into runs of ASCII and of
    non-ASCII characters; an ASCII run is unquoted to bytes and decoded, the
    others are kept.  [run] is the ASCII run being read, reversed. *)
Fixpoint unquote_runs (s : pystr) (run : pystr) : pystr :=
  match s with
  | [] => utf8_decode (unquote_to_bytes (rev run))
  | c :: s' =>
    if c <? 128 then unquote_runs s' (c :: run)
    else utf8_decode (unquote_to_bytes (rev run)) ++ c :: unquote_runs s' []
  end.

Definition contains_cp (c : Z) (s : pystr) : bool := existsb (Z.eqb c) s.

(** [parse.unquote(s)] on a [str]. *)
Definition unquote_str (s : pystr) : pystr :=
  if negb (contains_cp percent s) then s else unquote_runs s [].

Definition is_str (v : PyVal) (s : pystr) : bool :=
  match v with PStr s' => pystr_eqb s' s | _ => false end.

(** [parse.unquote(v)] on whatever the row holds: a number is not a
    container; a list or a dict without the item ["%"] has no [split]; with
    it, the regular expression refuses it. *)
Definition unquote (v : PyVal) : Res pystr :=
  match v with
  | PStr s => Ok (unquote_str s)
  | PList l =>
    if existsb (fun x => is_str x [percent]) l then Raise TypeError
    else Raise AttributeError
  | PDict d =>
    match assoc [percent] d with
    | Some _ => Raise TypeError
    | None => Raise AttributeError
    end
  | _ => Raise TypeError
  end.


(** The characters [quote] never escapes: letters, digits and [_.-~]. *)
Definition always_safe (b : Z) : bool :=
  ((65 <=? b) && (b <=? 90)) || ((97 <=? b) && (b <=? 122))
  || ((48 <=? b) && (b <=? 57))
  || (b =? 95) || (b =? 46) || (b =? 45) || (b =? 126).

Definition hex_digit (n : Z) : Z := if n <? 10 then 48 + n else 55 + n.

(** ['%{:02X}'.format(b)] *)
Definition percent_encode (b : Z) : pystr :=
  [percent; hex_digit (b / 16); hex_digit (b mod 16)].

Definition quote_byte (safe : pystr) (b : Z) : pystr :=
  if (b <? 128) && (always_safe b || contains_cp b safe) then [b]
  else percent_encode b.

(** [parse.quote(s, safe)] *)
Definition quote (s : pystr) (safe : pystr) : Res pystr :=
  bs <- utf8_encode s ;;
  Ok (flat_map (quote_byte (filter (fun c => c <? 128) safe)) bs).

(** [get_web_url] *)
Definition get_web_url (self : Entity) (path : pystr) : Res pystr :=
  if startswith (lower path) (lit "http") then Ok path
  else
    inner <- quote path [] ;;
    quoted_path <- quote inner [slash] ;;
    Ok (base_web_url self ++ quoted_path).

(** ** Floats *)

(** Python's [float] is IEEE binary64. *)
Definition prec : Z := 53.
Definition emax : Z := 1024.

(** The double nearest to [num/den] (ties to even), with the given sign:
    what [strtod] returns for a decimal literal of that value. *)
Definition float_of_ratio (neg : bool) (num den : positive) : spec_float :=
  SFdiv prec emax (S754_finite neg num 0) (S754_finite false den 0).

(** [float(z)] for an integer that a double holds exactly. *)
Definition float_of_Z (z : Z) : spec_float :=
  binary_normalize prec emax z 0 false.

Definition float_eqb (x y : spec_float) : bool := SFeqb x y.

(** [round(x, 1)] on a float: the exact value of [x] is rounded half to even
    to one decimal place, and the decimal is read back as a double.  A value
    that is not finite, and a zero, round to themselves. *)
Definition float_round1 (x : spec_float) : spec_float :=
  match x with
  | S754_finite s m e =>
    if 0 <=? e then x
    else
      let D := 2 ^ (- e) in
      let q := (10 * Zpos m) / D in
      let r := (10 * Zpos m) mod D in
      let q' := if (D <? 2 * r) || ((2 * r =? D) && Z.odd q) then q + 1 else q in
      match q' with
      | Zpos p => float_of_ratio s p 10
      | _ => S754_zero s
      end
  | _ => x
  end.

(** *** [repr] of a float: the shortest decimal that reads back as it *)

Definition lt_pow10 (N D p : Z) : bool :=
  if 0 <=? p then N <? D * 10 ^ p else N * 10 ^ (- p) <? D.

Fixpoint find_decpt (fuel : nat) (N D p : Z) : Z :=
  match fuel with
  | O => p
  | S fuel' => if lt_pow10 N D p then p else find_decpt fuel' N D (p + 1)
  end.

(** The position of the decimal point: the least [p] with [N/D < 10^p]. *)
Definition decpt_of (N D : Z) : Z :=
  find_decpt 6 N D (((Z.log2 N - Z.log2 D) * 30103) / 100000 - 1).

(** Does the decimal [c * 10^-s] read back as [x]? *)
Definition round_trips (x : spec_float) (c s : Z) : bool :=
  match c with
  | Zpos p =>
    float_eqb x
      (if 0 <=? s then float_of_ratio false p (Z.to_pos (10 ^ s))
       else float_of_ratio false (Z.to_pos (c * 10 ^ (- s))) 1)
  | _ => false
  end.

(** The [k]-digit decimal for [x = N/D], when one reads back as [x]: of the
    two [k]-digit neighbours of [x] the one that does, the nearer when both
    do, the even one on a tie. *)
Definition candidate (x : spec_float) (N D decpt k : Z) : option Z :=
  let s := k - decpt in
  let Ny := if 0 <=? s then N * 10 ^ s else N in
  let Dy := if 0 <=? s then D else D * 10 ^ (- s) in
  let c := Ny / Dy in
  let r := Ny mod Dy in
  let lo_ok := round_trips x c s in
  let hi_ok := negb (r =? 0) && round_trips x (c + 1) s in
  if lo_ok && hi_ok then
    Some (match 2 * r ?= Dy with
          | Lt => c
          | Gt => c + 1
          | Eq => if Z.even c then c else c + 1
          end)
  else if lo_ok then Some c
  else if hi_ok then Some (c + 1)
  else None.

Fixpoint shortest_from (fuel : nat) (x : spec_float) (N D decpt k : Z) : Z * Z :=
  match fuel with
  | O => (0, k)
  | S fuel' =>
    match candidate x N D decpt k with
    | Some c => (c, k)
    | None => shortest_from fuel' x N D decpt (k + 1)
    end
  end.

Definition rstrip (ch : Z) (s : pystr) : pystr := rev (lstrip ch (rev s)).

Definition zero_digit : Z := 48.

(** The digits of the shortest decimal of a positive finite double, without
    trailing zeros, and the position of its decimal point. *)
Definition shortest_digits (m : positive) (e : Z) : pystr * Z :=
  let N := if 0 <=? e then Zpos m * 2 ^ e else Zpos m in
  let D := if 0 <=? e then 1 else 2 ^ (- e) in
  let decpt := decpt_of N D in
  let '(c, k) := shortest_from 17 (S754_finite false m e) N D decpt 1 in
  let ds := str_of_int c in
  (rstrip zero_digit ds,
   if (Z.to_nat k <? List.length ds)%nat then decpt + 1 else decpt).

(** The layout [repr] gives the digits: scientific below [1e-4] and from
    [1e16] on, positional otherwise, with a digit after the point. *)
Definition float_layout (ds : pystr) (decpt : Z) : pystr :=
  let n := Z.of_nat (List.length ds) in
  if (decpt <=? -4) || (16 <? decpt) then
    firstn 1 ds
      ++ (if 1 <? n then lit "." ++ skipn 1 ds else [])
      ++ lit "e" ++ (if decpt - 1 <? 0 then lit "-" else lit "+")
      ++ rjust 2 zero_digit (str_of_int (Z.abs (decpt - 1)))
  else if decpt <=? 0 then
    lit "0." ++ repeat zero_digit (Z.to_nat (- decpt)) ++ ds
  else if n <=? decpt then
    ds ++ repeat zero_digit (Z.to_nat (decpt - n)) ++ lit ".0"
  else
    firstn (Z.to_nat decpt) ds ++ lit "." ++ skipn (Z.to_nat decpt) ds.

(** [repr(x)], which is also [str(x)] and [format(x, "")]. *)
Definition float_repr (x : spec_float) : pystr :=
  match x with
  | S754_nan => lit "nan"
  | S754_infinity s => if s then lit "-inf" else lit "inf"
  | S754_zero s => if s then lit "-0.0" else lit "0.0"
  | S754_finite s m e =>
    let '(ds, decpt) := shortest_digits m e in
    (if s then lit "-" else []) ++ float_layout ds decpt
  end.

(** *** Floor division of a float by a positive integer *)

(** [fmod(x, w)]: exact, with the sign of [x]. *)
Definition float_fmod (x : spec_float) (w : Z) : spec_float :=
  match x with
  | S754_nan | S754_infinity _ => S754_nan
  | S754_zero _ => x
  | S754_finite s m e =>
    let r := if 0 <=? e then (Zpos m * 2 ^ e) mod w
             else Zpos m mod (w * 2 ^ (- e)) in
    match r with
    | Zpos p => binary_round prec emax s p (if 0 <=? e then 0 else e)
    | _ => S754_zero s
    end
  end.

(** C's [floor]. *)
Definition float_floor (x : spec_float) : spec_float :=
  match x with
  | S754_finite s m e =>
    if 0 <=? e then x
    else
      let q := Zpos m / 2 ^ (- e) in
      let v := if s && negb (Zpos m mod 2 ^ (- e) =? 0) then q + 1 else q in
      match v with
      | Zpos p => binary_round prec emax s p 0
      | _ => S754_zero s
      end
  | _ => x
  end.

Definition float_sign (x : spec_float) : bool :=
  match x with
  | S754_zero s | S754_infinity s | S754_finite s _ _ => s
  | S754_nan => false
  end.

(** [x // w] for a float [x] and a positive integer [w], after
    [_float_div_mod] of CPython. *)
Definition float_floordiv (vx : spec_float) (w : Z) : spec_float :=
  let wx := float_of_Z w in
  let md := float_fmod vx w in
  let div := SFdiv prec emax (SFsub prec emax vx md) wx in
  let div :=
    if negb (float_is_zero md) && SFltb md (S754_zero false)
    then SFsub prec emax div (float_of_Z 1) else div in
  if negb (float_is_zero div) then
    let floordiv := float_floor div in
    if SFltb (float_of_ratio false 1 2) (SFsub prec emax div floordiv)
    then SFadd prec emax floordiv (float_of_Z 1) else floordiv
  else S754_zero (float_sign (SFdiv prec emax vx wx)).

(** ** Operators and built-ins on dynamically typed operands *)

(** [v == 0] *)
Definition eq_zero (v : PyVal) : bool :=
  match v with
  | PInt z => z =? 0
  | PBool b => negb b
  | PFloat f => float_is_zero f
  | _ => false
  end.

(** [v // w] for a positive integer literal [w]. *)
Definition floordiv (v : PyVal) (w : Z) : Res PyVal :=
  match v with
  | PInt z => Ok (PInt (z / w))
  | PBool b => Ok (PInt ((if b then 1 else 0) / w))
  | PFloat f => Ok (PFloat (float_floordiv f w))
  | _ => Raise TypeError
  end.

(** [round(v, 1)]: an [int] rounds to itself. *)
Definition round1 (v : PyVal) : Res PyVal :=
  match v with
  | PInt z => Ok (PInt z)
  | PBool b => Ok (PInt (if b then 1 else 0))
  | PFloat f => Ok (PFloat (float_round1 f))
  | _ => Raise TypeError
  end.

(** [format(v, "0>2")], the replacement field [{:0>2}]. *)
Definition format_0r2 (v : PyVal) : Res pystr :=
  match v with
  | PInt z => Ok (rjust 2 zero_digit (str_of_int z))
  | PBool b => Ok (rjust 2 zero_digit (str_of_int (if b then 1 else 0)))
  | PFloat f => Ok (rjust 2 zero_digit (float_repr f))
  | PStr s => Ok (rjust 2 zero_digit s)
  | _ => Raise TypeError
  end.

(** ** [json.dumps] with its defaults *)

Definition hex_digit_lower (n : Z) : Z := if n <? 10 then 48 + n else 87 + n.

(** ['\\u{0:04x}'.format(n)] *)
Definition json_u (n : Z) : pystr :=
  lit "\u" ++ [hex_digit_lower (n / 4096); hex_digit_lower ((n / 256) mod 16);
               hex_digit_lower ((n / 16) mod 16); hex_digit_lower (n mod 16)].

Definition json_escape (c : Z) : pystr :=
  if c =? 92 then lit "\\"
  else if c =? 34 then [92; 34]
  else if (32 <=? c) && (c <=? 126) then [c]
  else if c =? 8 then lit "\b"
  else if c =? 12 then lit "\f"
  else if c =? 10 then lit "\n"
  else if c =? 13 then lit "\r"
  else if c =? 9 then lit "\t"
  else if c <? 65536 then json_u c
  else
    let n := c - 65536 in
    json_u (Z.lor 55296 (Z.land (Z.shiftr n 10) 1023))
      ++ json_u (Z.lor 56320 (Z.land n 1023)).

Definition json_string (s : pystr) : pystr :=
  [34] ++ flat_map json_escape s ++ [34].

Definition json_float (x : spec_float) : pystr :=
  match x with
  | S754_nan => lit "NaN"
  | S754_infinity s => if s then lit "-Infinity" else lit "Infinity"
  | _ => float_repr x
  end.

Fixpoint json_dumps (v : PyVal) : pystr :=
  match v with
  | PNone => lit "null"
  | PBool b => if b then lit "true" else lit "false"
  | PInt z => str_of_int z
  | PFloat f => json_float f
  | PStr s => json_string s
  | PList l =>
    match l with
    | [] => lit "[]"
    | x :: l' =>
      lit "[" ++ json_dumps x
        ++ (fix items (l : list PyVal) : pystr :=
              match l with
              | [] => []
              | y :: l'' => lit ", " ++ json_dumps y ++ items l''
              end) l'
        ++ lit "]"
    end
  | PDict d =>
    match d with
    | [] => lit "{}"
    | (k, x) :: d' =>
      lit "{" ++ json_string k ++ lit ": " ++ json_dumps x
        ++ (fix items (d : list (pystr * PyVal)) : pystr :=
              match d with
              | [] => []
              | (k', y) :: d'' =>
                lit ", " ++ json_string k' ++ lit ": " ++ json_dumps y ++ items d''
              end) d'
        ++ lit "}"
    end
  end.

(** [d[k] = v]: a key already there keeps its place. *)
Fixpoint dict_set (k : pystr) (v : PyVal) (d : list (pystr * PyVal))
    : list (pystr * PyVal) :=
  match d with
  | [] => [(k, v)]
  | (k', v') :: d' =>
    if pystr_eqb k' k then (k, v) :: d' else (k', v') :: dict_set k v d'
  end.

(** ** The display attribute of [KodiNextUpTVEntity] *)

Definition black_star : Z := 9733.

(** The first element of [card_json]. *)
Definition card_template : PyVal :=
  PDict [(lit "title_default", PStr (lit "$title"));
         (lit "line1_default", PStr (lit "$episode"));
         (lit "line2_default", PStr (lit "$firstaired"));
         (lit "line3_default", PStr (lit "$rating - $runtime"));
         (lit "line4_default", PStr (lit "$number"));
         (lit "icon", PStr (lit "mdi:eye-off"))].

(** [f"{rating}"] for what [round] returns. *)
Definition number_str (v : PyVal) : pystr :=
  match v with
  | PInt z => str_of_int z
  | PFloat f => float_repr f
  | _ => []
  end.

(** The [rating] entry: the rounded number, turned into a starred string
    only when it is truthy. *)
Definition card_rating (rounded : PyVal) : PyVal :=
  if truthy rounded
  then PStr ([black_star] ++ lit " " ++ number_str rounded)
  else rounded.

(** [self.get_web_url(parse.unquote(art)[8:].strip("/"))] *)
Definition art_url (self : Entity) (art : PyVal) : Res pystr :=
  unquoted <- unquote art ;;
  get_web_url self (strip slash (skipn 8 unquoted)).

(** The body of the loop: the card of one row. *)
Definition card_of (self : Entity) (show : PyVal) : Res PyVal :=
  title <- py_getitem show (lit "title") ;;
  playcount <- py_getitem show (lit "playcount") ;;
  season <- py_getitem show (lit "season") ;;
  episode <- py_getitem show (lit "episode") ;;
  season_str <- format_0r2 season ;;
  episode_str <- format_0r2 episode ;;
  runtime <- py_getitem show (lit "runtime") ;;
  minutes <- floordiv runtime 60 ;;
  showtitle <- py_getitem show (lit "showtitle") ;;
  let card :=
    [(lit "episode", title);
     (lit "fanart", PStr []);
     (lit "flag", PBool (eq_zero playcount));
     (lit "number", PStr (lit "S" ++ season_str ++ lit "E" ++ episode_str));
     (lit "poster", PStr []);
     (lit "runtime", minutes);
     (lit "title", showtitle)] in
  raw_rating <- py_getitem show (lit "rating") ;;
  rating <- round1 raw_rating ;;
  let card := dict_set (lit "rating") (card_rating rating) card in
  art <- py_getitem show (lit "art") ;;
  fanart <- py_get art (lit "tvshow.fanart") (PStr []) ;;
  art' <- py_getitem show (lit "art") ;;
  poster <- py_get art' (lit "tvshow.poster") (PStr []) ;;
  card <- (if truthy fanart
           then url <- art_url self fanart ;;
                Ok (dict_set (lit "fanart") (PStr url) card)
           else Ok card) ;;
  card <- (if truthy poster
           then url <- art_url self poster ;;
                Ok (dict_set (lit "poster") (PStr url) card)
           else Ok card) ;;
  Ok (PDict card).

(** [card_json] when the loop is over. *)
Definition card_json (self : Entity) : Res (list PyVal) :=
  shows <- py_iter (data self) ;;
  cards <- mapM (card_of self) shows ;;
  Ok (card_template :: cards).

(** [extra_state_attributes]: the getter writes no field and logs nothing. *)
Definition extra_state_attributes (self : Entity) : Run (list (pystr * PyVal)) :=
  mkRun self []
    (cards <- card_json self ;;
     Ok [(lit "data", PStr (json_dumps (PList cards)))]).

(** ** Histories of updates *)

(** The instance after the updates of [ks], oldest first, each against the
    connection as it was at that call. *)
Fixpoint updates (ks : list Kodi) (self : Entity) : Entity :=
  match ks with
  | [] => self
  | k :: ks' => updates ks' (after (async_update k self))
  end.

(** The rows a result delivers when it is a successful non-empty fetch: a
    mapping whose error entry is missing or falsy and whose entry at the
    result key is non-empty. *)
Definition fetched_rows (self : Entity) (result : PyVal) : option PyVal :=
  match result with
  | PDict d =>
    if match assoc (lit "error") d with
       | Some error => truthy error
       | None => false
       end
    then None
    else
      match assoc (result_key self) d with
      | Some rows => if truthy rows then Some rows else None
      | None => None
      end
  | _ => None
  end.

(** The rows an update fetches: the connection is up and the call returns
    such a result. *)
Definition delivered (self : Entity) (kodi : Kodi) : option PyVal :=
  if connected kodi then
    match call_method kodi (update_method self) (properties self) with
    | Returned result => fetched_rows self result
    | _ => None
    end
  else None.

(** The rows of the most recent successful non-empty fetch of a history. *)
Fixpoint last_delivered (ks : list Kodi) (self : Entity) : option PyVal :=
  match ks with
  | [] => None
  | k :: ks' =>
    match last_delivered ks' (after (async_update k self)) with
    | Some rows => Some rows
    | None => delivered self k
    end
  end.

(** The fields no method is meant to write. *)
Definition same_configuration (a b : Entity) : Prop :=
  base_web_url a = base_web_url b
  /\ update_method a = update_method b
  /\ properties a = properties b
  /\ result_key a = result_key b
  /\ entity_id a = entity_id b.

(** ** Well-formed rows and their cards *)

(** A Unicode scalar value: a code point that is not a surrogate.  The text
    of a JSON response is made of these unless it escapes a lone
    surrogate. *)
Definition scalar_value (c : Z) : bool :=
  (0 <=? c) && (c <=? 1114111) && negb ((55296 <=? c) && (c <=? 57343)).

Definition scalar_text (s : pystr) : bool := forallb scalar_value s.


Definition field (show : PyVal) (k : pystr) : option PyVal :=
  match show with
  | PDict d => assoc k d
  | _ => None
  end.













(** ** Inputs of the scenarios *)

Definition local_config : KodiConfig :=
  mkConfig (lit "kodi.local") 8080 false None None.

(** A freshly built entity. *)
Definition tv : Entity := KodiNextUpTVEntity local_config.

(** A connected device whose call ends in [r]. *)
Definition answering (r : CallOutcome) : Kodi := mkKodi true (fun _ _ => r).

(** Scenario A: the row of the pilot episode; the rating is the double
    nearest to 8.67. *)
Definition pilot_row : PyVal :=
  PDict [(lit "title", PStr (lit "Pilot"));
         (lit "showtitle", PStr (lit "Show"));
         (lit "season", PInt 1);
         (lit "episode", PInt 3);
         (lit "playcount", PInt 0);
         (lit "runtime", PInt 1500);
         (lit "rating", PFloat (float_of_ratio false 867 100));
         (lit "art",
          PDict [(lit "tvshow.fanart",
                  PStr (lit "image://%2Fpath%2Fto%2Fart.jpg/"))])].

(** An entity that holds the pilot row from an earlier fetch. *)
Definition tv_with_pilot : Entity :=
  after (async_update
           (answering (Returned (PDict [(lit "tvshows", PList [pilot_row])])))
           tv).

(** Scenario B: the device answers with an empty list of shows. *)
Definition empty_answer : Kodi :=
  answering (Returned (PDict [(lit "tvshows", PList [])])).

(** An error payload that lacks its code. *)
Definition codeless_error_answer : Kodi :=
  answering
    (Returned (PDict [(lit "error", PDict [(lit "message", PStr (lit "boom"))])])).


(** A protocol error raised with its message alone, as the JSON-RPC client
    does for a response that is not a mapping. *)
Definition bare_protocol_error : Kodi :=
  answering
    (RaisedProtocolError [PStr (lit "Response is not a dictionary")]).


(** Scenario E: the pilot row with a rating of exactly 0.0. *)
Definition unrated_row : PyVal :=
  PDict [(lit "title", PStr (lit "Pilot"));
         (lit "showtitle", PStr (lit "Show"));
         (lit "season", PInt 1);
         (lit "episode", PInt 3);
         (lit "playcount", PInt 0);
         (lit "runtime", PInt 1500);
         (lit "rating", PFloat (S754_zero false));
         (lit "art", PDict [])].


(** A row that has a title and nothing else. *)
Definition title_only_row : PyVal := PDict [(lit "title", PStr (lit "Pilot"))].



(** The card the loop computes for the unrated row. *)
Definition unrated_card : PyVal :=
  Eval vm_compute in
    match card_of tv unrated_row with
    | Ok card => card
    | Raise _ => PNone
    end.



(** A device that is not connected. *)
Definition offline : Kodi := mkKodi false (fun _ _ => RaisedTransportError).

(** A device that answers with the pilot row. *)
Definition pilot_answer : Kodi :=
  answering (Returned (PDict [(lit "tvshows", PList [pilot_row])])).

(** ** Further inputs *)

(** A device whose call fails with an exception that is neither a protocol
    nor a transport error. *)
Definition crashing : Kodi := answering RaisedException.

(** ** Characters of a URL *)

(** A character that needs no escaping in a URL, or the escape character
    itself. *)
Definition url_safe (c : Z) : bool := always_safe c || (c =? percent).

(** A code point of Unicode, surrogate or not. *)
Definition code_point (c : Z) : bool := (0 <=? c) && (c <=? 1114111).

Definition is_ascii (c : Z) : bool := (0 <=? c) && (c <? 128).

(** The keys the loop reads from a row. *)
Definition row_keys : list pystr :=
  [lit "title"; lit "playcount"; lit "season"; lit "episode"; lit "runtime";
   lit "showtitle"; lit "rating"; lit "art"].

(** A path with a lone surrogate, as the JSON text ["\ud800.jpg"] decodes. *)
Definition surrogate_path : pystr := [55296] ++ lit ".jpg".

(** An entity whose stored rows are the pilot row and a row without fields. *)
Definition tv_with_mixed_rows : Entity :=
  set_data (PList [pilot_row; title_only_row]) tv.

(** ** [sensor.py]: setting the platform up *)

(** [d[k]] on a mapping of any values. *)
Fixpoint lookup {A} (k : pystr) (d : list (pystr * A)) : option A :=
  match d with
  | [] => None
  | (k', v) :: d' => if pystr_eqb k' k then Some v else lookup k d'
  end.

Definition getitem {A} (d : list (pystr * A)) (k : pystr) : Res A :=
  match lookup k d with
  | Some v => Ok v
  | None => Raise KeyError
  end.

(** A config entry of the Kodi integration: its id and its [data]. *)
Record ConfigEntry : Type := mkEntry {
  entry_id : pystr;
  entry_data : KodiConfig
}.

(** What the set-up reads of the [hass] object: [hass.data[DOMAIN]] (per
    entry of this integration, its configuration), [hass.data[KODI_DOMAIN]]
    (per entry of the Kodi integration, the handles it keeps) and the
    entries of the Kodi integration.  Either domain may be missing from
    [hass.data]. *)
Record HomeAssistant : Type := mkHass {
  own_data : option (list (pystr * list (pystr * pystr)));
  kodi_data : option (list (pystr * list (pystr * Kodi)));
  kodi_entries : list ConfigEntry
}.

(** What a set-up function has done when it is over: the entities handed to
    [async_add_entities], each with the connection handle it was built
    with, the records logged, and the outcome. *)
Record Setup : Type := mkSetup {
  added : list (Kodi * Entity);
  setup_logged : list LogRecord;
  setup_outcome : Res unit
}.

Definition domain_data {A} (d : option (list (pystr * A))) (k : pystr) : Res A :=
  match d with
  | Some entries => getitem entries k
  | None => Raise KeyError
  end.

Section Sensor.

(** The keys [DATA_KODI] and [CONF_HOST] of Home Assistant, and the two
    helpers of [utils.py], which is not among the sources: they are given
    the [hass] object and an entry id or a host, and return an entry or
    [None], or raise. *)
Variable DATA_KODI : pystr.
Variable CONF_HOST : pystr.
Variable find_matching_config_entry :
  HomeAssistant -> pystr -> Res (option ConfigEntry).
Variable find_matching_config_entry_for_host :
  HomeAssistant -> PyVal -> Res (option ConfigEntry).

(** [entry.as_dict()], which only the log reads. *)
Variable as_dict : ConfigEntry -> PyVal.

Definition missing_kodi_data (hass : HomeAssistant) : LogRecord :=
  mkLog ERROR
    (lit "Failed to setup sensor. Could not find kodi data from existing config entries: %s")
    [PList (map as_dict (kodi_entries hass))].

(** The part the two functions share: the [try] statement and what
    follows it.  [entry] is evaluated by the caller where the source
    reads its [data]. *)
Definition add_tv_entity (hass : HomeAssistant) (kodi_id : pystr)
    (config : Res KodiConfig) : Setup :=
  match domain_data (kodi_data hass) kodi_id with
  | Raise KeyError =>
    mkSetup [] [missing_kodi_data hass] (Ok tt)
  | Raise e => mkSetup [] [] (Raise e)
  | Ok data =>
    match getitem data DATA_KODI with
    | Raise e => mkSetup [] [] (Raise e)
    | Ok kodi =>
      match config with
      | Raise e => mkSetup [] [] (Raise e)
      | Ok config => mkSetup [(kodi, KodiNextUpTVEntity config)] [] (Ok tt)
      end
    end
  end.

(** [x.data] on what a helper returned: [None] has no such attribute. *)
Definition data_of (entry : option ConfigEntry) : Res KodiConfig :=
  match entry with
  | Some e => Ok (entry_data e)
  | None => Raise AttributeError
  end.

(** [async_setup_entry], for the entry of this integration with the id
    [config_entry_id]. *)
Definition async_setup_entry (hass : HomeAssistant) (config_entry_id : pystr)
    : Setup :=
  match (conf <- domain_data (own_data hass) config_entry_id ;;
         kodi_id <- getitem conf (lit "kodi_config_entry_id") ;;
         kodi_config_entry <- find_matching_config_entry hass kodi_id ;;
         Ok (kodi_id, kodi_config_entry)) with
  | Raise e => mkSetup [] [] (Raise e)
  | Ok (kodi_id, kodi_config_entry) =>
    add_tv_entity hass kodi_id (data_of kodi_config_entry)
  end.

(** [async_setup_platform], for the YAML configuration [config]. *)
Definition async_setup_platform (hass : HomeAssistant)
    (config : list (pystr * PyVal)) : Setup :=
  match (host <- getitem config CONF_HOST ;;
         config_entry <- find_matching_config_entry_for_host hass host ;;
         Ok (host, config_entry)) with
  | Raise e => mkSetup [] [] (Raise e)
  | Ok (host, None) =>
    mkSetup []
      [mkLog ERROR
         (lit "Failed to setup sensor. Could not find config entry for kodi host `%s` from configured hosts: %s")
         [host;
          PList (map (fun entry => PStr (cfg_host (entry_data entry)))
                     (kodi_entries hass))]]
      (Ok tt)
  | Ok (host, Some config_entry) =>
    add_tv_entity hass (entry_id config_entry) (Ok (entry_data config_entry))
  end.

End Sensor.

(** *** Inputs of the set-up scenarios *)

(** A stand-in for [find_matching_config_entry], to run the scenarios: the
    first entry with that id. *)
Definition entry_with_id (hass : HomeAssistant) (id : pystr)
    : Res (option ConfigEntry) :=
  Ok (find (fun entry => pystr_eqb (entry_id entry) id) (kodi_entries hass)).

(** A stand-in for [find_matching_config_entry_for_host]: the first entry
    whose host is that string. *)
Definition entry_with_host (hass : HomeAssistant) (host : PyVal)
    : Res (option ConfigEntry) :=
  Ok (find (fun entry => is_str host (cfg_host (entry_data entry)))
           (kodi_entries hass)).

Definition plain_as_dict (entry : ConfigEntry) : PyVal :=
  PDict [(lit "entry_id", PStr (entry_id entry))].

Definition local_entry : ConfigEntry := mkEntry (lit "abc123") local_config.

(** Home Assistant with the Kodi integration set up for [local_entry], and
    this integration configured to use it. *)
Definition home : HomeAssistant :=
  mkHass (Some [(lit "own1", [(lit "kodi_config_entry_id", lit "abc123")])])
         (Some [(lit "abc123", [(lit "kodi", pilot_answer)])])
         [local_entry].

(** The same, before the Kodi integration has stored its handles. *)
Definition home_without_kodi_data : HomeAssistant :=
  mkHass (Some [(lit "own1", [(lit "kodi_config_entry_id", lit "abc123")])])
         None
         [local_entry].

(** The handles are stored, but the entry of the Kodi integration is gone. *)
Definition home_without_entry : HomeAssistant :=
  mkHass (Some [(lit "own1", [(lit "kodi_config_entry_id", lit "abc123")])])
         (Some [(lit "abc123", [(lit "kodi", pilot_answer)])])
         [].

(** * Properties of the update cycle *)

Lemma pystr_eqb_refl (s : pystr) : pystr_eqb s s = true.
Proof.
  induction s as [|c s IH]; simpl; [reflexivity|].
  now rewrite Z.eqb_refl, IH.
Qed.



Lemma handle_result_rows (self : Entity) d :
  match assoc (lit "error") d with Some error => truthy error | None => false end
    = false ->
  _handle_result self (PDict d) =
    match assoc (result_key self) d with
    | Some rows =>
      if truthy rows
      then mkRun (set_state STATE_ON (set_data rows self)) [] (Ok tt)
      else mkRun (set_state STATE_UNKNOWN self)
             [mkLog WARNING
                (lit "No %s found after requesting data from Kodi, assuming empty.")
                [PStr (result_key self)]]
             (Ok tt)
    | None =>
      mkRun (set_state STATE_UNKNOWN self)
        [mkLog WARNING
           (lit "No %s found after requesting data from Kodi, assuming empty.")
           [PStr (result_key self)]]
        (Ok tt)
    end.
Proof.
  intro Herr. unfold _handle_result, py_get.
  destruct (assoc (lit "error") d) as [error|].
  - rewrite Herr. destruct (assoc (result_key self) d) as [rows|]; simpl.
    + destruct (truthy rows); reflexivity.
    + reflexivity.
  - simpl truthy. cbv iota.
    destruct (assoc (result_key self) d) as [rows|]; simpl.
    + destruct (truthy rows); reflexivity.
    + reflexivity.
Qed.

(** No branch of [_handle_result] writes anything but the state and the
    rows. *)
Lemma handle_result_frame (self : Entity) (result : PyVal) :
  same_configuration (after (_handle_result self result)) self.
Proof.
  unfold same_configuration, _handle_result.
  destruct (py_get result (lit "error") PNone) as [error|]; simpl; auto 6.
  destruct (truthy error).
  - destruct (code <- py_get error (lit "code") PNone ;;
              message <- py_get error (lit "message") PNone ;;
              _ <- percent_d_check code ;;
              Ok [PStr (result_key self); code; message]); simpl; auto 6.
  - destruct (py_get result (result_key self) (PList [])) as [new_data|];
      simpl; auto 6.
    destruct (truthy new_data); simpl; auto 6.
Qed.

Lemma after_try_frame (self : Entity) logs result :
  same_configuration (after (after_try self logs result)) self.
Proof.
  unfold after_try. destruct (truthy result); simpl.
  - apply handle_result_frame.
  - unfold same_configuration; simpl; auto 6.
Qed.

Lemma same_configuration_refl (e : Entity) : same_configuration e e.
Proof. unfold same_configuration; auto 6. Qed.

Lemma same_configuration_trans (a b c : Entity) :
  same_configuration a b -> same_configuration b c -> same_configuration a c.
Proof.
  unfold same_configuration.
  intros (H1 & H2 & H3 & H4 & H5) (K1 & K2 & K3 & K4 & K5).
  repeat split; congruence.
Qed.

Lemma async_update_frame (kodi : Kodi) (self : Entity) :
  same_configuration (after (async_update kodi self)) self.
Proof.
  unfold async_update.
  destruct (connected kodi); simpl; [|apply same_configuration_refl].
  destruct (call_method kodi (update_method self) (properties self)).
  - apply after_try_frame.
  - destruct (protocol_error_payload args).
    + apply after_try_frame.
    + apply same_configuration_refl.
  - apply after_try_frame.
  - eapply same_configuration_trans; [apply after_try_frame|].
    unfold same_configuration; simpl; auto 6.
  - apply same_configuration_refl.
Qed.

Lemma updates_frame (ks : list Kodi) (self : Entity) :
  same_configuration (updates ks self) self.
Proof.
  revert self; induction ks as [|k ks IH]; intro self; simpl.
  - apply same_configuration_refl.
  - eapply same_configuration_trans; [apply IH|apply async_update_frame].
Qed.

Lemma assoc_some_nonempty k d v : assoc k d = Some v -> truthy (PDict d) = true.
Proof. destruct d; [discriminate|reflexivity]. Qed.

(** C5: when the call returns a result without an error entry and with a
    non-empty list at the result key, the update ends normally, the state
    is [STATE_ON] and the stored rows are exactly that list. *)
Theorem update_stores_fetched_rows
    (kodi : Kodi) (self : Entity) d (row : PyVal) (rows : list PyVal) :
  connected kodi = true ->
  call_method kodi (update_method self) (properties self) = Returned (PDict d) ->
  assoc (lit "error") d = None ->
  assoc (result_key self) d = Some (PList (row :: rows)) ->
  outcome (async_update kodi self) = Ok tt
  /\ state (after (async_update kodi self)) = Some STATE_ON
  /\ data (after (async_update kodi self)) = PList (row :: rows).
Proof.
  intros Hconn Hcall Herr Hrows.
  unfold async_update, after_try. rewrite Hconn, Hcall. cbn [negb].
  rewrite (assoc_some_nonempty _ _ _ Hrows).
  rewrite handle_result_rows by now rewrite Herr.
  rewrite Hrows. simpl. auto.
Qed.

Lemma update_stores_fetched_rows_witness :
  outcome (async_update
             (answering (Returned (PDict [(lit "tvshows", PList [pilot_row])])))
             tv) = Ok tt
  /\ state tv_with_pilot = Some STATE_ON
  /\ data tv_with_pilot = PList [pilot_row].
Proof.
  apply (update_stores_fetched_rows
           (answering (Returned (PDict [(lit "tvshows", PList [pilot_row])])))
           tv [(lit "tvshows", PList [pilot_row])] pilot_row []);
    reflexivity.
Defined.

(** C3, as the code has it: when the call returns a non-empty result
    without an error entry, whose entry at the result key is missing or
    empty, the update ends normally, the state is [STATE_UNKNOWN] and the
    stored rows are the ones held before. *)
Theorem update_unknown_keeps_rows (kodi : Kodi) (self : Entity) d :
  connected kodi = true ->
  call_method kodi (update_method self) (properties self) = Returned (PDict d) ->
  d <> [] ->
  assoc (lit "error") d = None ->
  (forall rows, assoc (result_key self) d = Some rows -> truthy rows = false) ->
  outcome (async_update kodi self) = Ok tt
  /\ state (after (async_update kodi self)) = Some STATE_UNKNOWN
  /\ data (after (async_update kodi self)) = data self.
Proof.
  intros Hconn Hcall Hd Herr Hrows.
  unfold async_update, after_try. rewrite Hconn, Hcall. cbn [negb].
  replace (truthy (PDict d)) with true by (destruct d; [contradiction|reflexivity]).
  rewrite handle_result_rows by now rewrite Herr.
  destruct (assoc (result_key self) d) as [rows|] eqn:E.
  - rewrite (Hrows rows eq_refl). simpl. auto.
  - simpl. auto.
Qed.

Lemma update_unknown_keeps_rows_witness :
  outcome (async_update empty_answer tv_with_pilot) = Ok tt
  /\ state (after (async_update empty_answer tv_with_pilot)) = Some STATE_UNKNOWN
  /\ data (after (async_update empty_answer tv_with_pilot)) = data tv_with_pilot.
Proof.
  apply (update_unknown_keeps_rows empty_answer tv_with_pilot
           [(lit "tvshows", PList [])]).
  - reflexivity.
  - reflexivity.
  - discriminate.
  - reflexivity.
  - intros rows H. vm_compute in H. injection H as <-. reflexivity.
Defined.

(** C3 as stated fails after Scenario B: the result has no error entry and
    an empty list of shows, the state becomes [STATE_UNKNOWN], and the rows
    of the earlier fetch are still stored. *)
Lemma empty_fetch_keeps_stale_rows :
  connected empty_answer = true
  /\ call_method empty_answer (update_method tv_with_pilot)
       (properties tv_with_pilot)
     = Returned (PDict [(lit "tvshows", PList [])])
  /\ assoc (lit "error") [(lit "tvshows", PList [])] = None
  /\ assoc (result_key tv_with_pilot) [(lit "tvshows", PList [])] = Some (PList [])
  /\ state (after (async_update empty_answer tv_with_pilot)) = Some STATE_UNKNOWN
  /\ data (after (async_update empty_answer tv_with_pilot)) = PList [pilot_row]
  /\ data (after (async_update empty_answer tv_with_pilot)) <> PList [].
Proof.
  repeat split; try reflexivity. discriminate.
Qed.




(** When the call raises a transport error, or a protocol error that carries
    the remote error at [args[2]["error"]], the update ends normally, the
    state is [STATE_OFF] and the stored rows are the ones held before. *)
Lemma update_off_keeps_rows (kodi : Kodi) (self : Entity) :
  connected kodi = true ->
  (call_method kodi (update_method self) (properties self) = RaisedTransportError
   \/ exists args error,
        call_method kodi (update_method self) (properties self)
          = RaisedProtocolError args
        /\ protocol_error_payload args = Ok error) ->
  outcome (async_update kodi self) = Ok tt
  /\ state (after (async_update kodi self)) = Some STATE_OFF
  /\ data (after (async_update kodi self)) = data self.
Proof.
  intros Hconn [Hcall | (args & error & Hcall & Hpay)];
    unfold async_update; rewrite Hconn, Hcall; cbn [negb].
  - unfold after_try. simpl. auto.
  - rewrite Hpay. unfold after_try. simpl. auto.
Qed.

(** C7 fails on a protocol error raised with its message alone: the handler
    indexes [args[2]], the [IndexError] leaves the update, and the state is
    the one held before, not [STATE_OFF]. *)
Theorem bare_protocol_error_escapes :
  connected bare_protocol_error = true
  /\ call_method bare_protocol_error (update_method tv_with_pilot)
       (properties tv_with_pilot)
     = RaisedProtocolError [PStr (lit "Response is not a dictionary")]
  /\ outcome (async_update bare_protocol_error tv_with_pilot) = Raise IndexError
  /\ state (after (async_update bare_protocol_error tv_with_pilot))
     = Some STATE_ON
  /\ data (after (async_update bare_protocol_error tv_with_pilot))
     = data tv_with_pilot.
Proof.
  repeat split; reflexivity.
Qed.

(** C10: every branch of [async_update] and of [_handle_result], and the
    read of the display attribute, leave [base_web_url], [update_method],
    [properties], [result_key] (and [entity_id]) as they were. *)
Theorem methods_keep_configuration
    (kodi : Kodi) (self : Entity) (result : PyVal) :
  same_configuration (after (async_update kodi self)) self
  /\ same_configuration (after (_handle_result self result)) self
  /\ same_configuration (after (extra_state_attributes self)) self.
Proof.
  split; [apply async_update_frame|].
  split; [apply handle_result_frame|].
  apply same_configuration_refl.
Qed.

(** ** The invariant of the stored rows *)

Lemma handle_result_rows_spec (self : Entity) (result : PyVal) :
  data (after (_handle_result self result))
    = match fetched_rows self result with
      | Some rows => rows
      | None => data self
      end
  /\ (fetched_rows self result = None ->
      _state (after (_handle_result self result)) = Some STATE_ON ->
      _state self = Some STATE_ON).
Proof.
  destruct result as [| b | z | f | s | l | d];
    try (split; [reflexivity | intros _ H; exact H]).
  destruct (match assoc (lit "error") d with
            | Some error => truthy error
            | None => false
            end) eqn:Herr.
  - unfold fetched_rows; rewrite Herr.
    unfold _handle_result, py_get.
    destruct (assoc (lit "error") d) as [error|]; [|discriminate].
    rewrite Herr.
    destruct (code <- match error with
                      | PDict d0 =>
                        Ok match assoc (lit "code") d0 with
                           | Some x => x
                           | None => PNone
                           end
                      | _ => Raise AttributeError
                      end ;;
              message <- match error with
                         | PDict d0 =>
                           Ok match assoc (lit "message") d0 with
                              | Some x => x
                              | None => PNone
                              end
                         | _ => Raise AttributeError
                         end ;;
              _ <- percent_d_check code ;;
              Ok [PStr (result_key self); code; message]);
      simpl; split; auto; intros _ H; try discriminate; exact H.
  - rewrite handle_result_rows by exact Herr.
    unfold fetched_rows; rewrite Herr.
    destruct (assoc (result_key self) d) as [rows|]; simpl.
    + destruct (truthy rows); simpl; split; auto; intros; discriminate.
    + split; auto; intros; discriminate.
Qed.

Lemma fetched_rows_truthy (self : Entity) result rows :
  fetched_rows self result = Some rows -> truthy rows = true.
Proof.
  unfold fetched_rows. destruct result; try discriminate.
  destruct (match assoc (lit "error") d with
            | Some error => truthy error
            | None => false
            end); try discriminate.
  destruct (assoc (result_key self) d) as [r|]; try discriminate.
  destruct (truthy r) eqn:E; try discriminate.
  now intros [= <-].
Qed.

Lemma fetched_rows_result_truthy (self : Entity) result rows :
  fetched_rows self result = Some rows -> truthy result = true.
Proof.
  unfold fetched_rows. destruct result; try discriminate.
  destruct d; [|reflexivity].
  simpl. discriminate.
Qed.

Lemma after_try_rows_spec (self : Entity) logs (result : PyVal) :
  data (after (after_try self logs result))
    = match fetched_rows self result with
      | Some rows => rows
      | None => data self
      end
  /\ (fetched_rows self result = None ->
      _state (after (after_try self logs result)) <> Some STATE_ON
      \/ _state self = Some STATE_ON).
Proof.
  unfold after_try. destruct (truthy result) eqn:Ht.
  - cbn [after]. destruct (handle_result_rows_spec self result) as [Hd Hs].
    split; [exact Hd|]. intro Hnone.
    destruct (_state (after (_handle_result self result))) as [[ | | | ]|] eqn:E;
      try (left; discriminate).
    right. now apply Hs.
  - destruct (fetched_rows self result) as [rows|] eqn:E.
    + apply fetched_rows_result_truthy in E. congruence.
    + split; [reflexivity|]. intros _. left. simpl. discriminate.
Qed.

(** One update: the stored rows are those it fetched, or those held before;
    and without a fetch the state is [STATE_ON] only if it already was. *)
Lemma async_update_rows_spec (kodi : Kodi) (self : Entity) :
  data (after (async_update kodi self))
    = match delivered self kodi with
      | Some rows => rows
      | None => data self
      end
  /\ (delivered self kodi = None ->
      _state (after (async_update kodi self)) = Some STATE_ON ->
      _state self = Some STATE_ON).
Proof.
  unfold async_update, delivered.
  destruct (connected kodi); cbn [negb]; [|split; auto].
  destruct (call_method kodi (update_method self) (properties self)).
  - destruct (after_try_rows_spec self [] result) as [Hd Hs].
    split; [exact Hd|]. intros Hn Hon. destruct (Hs Hn); [contradiction|assumption].
  - destruct (protocol_error_payload args); simpl; split; auto; discriminate.
  - simpl; split; auto; discriminate.
  - simpl; split; auto; discriminate.
  - simpl; split; auto.
Qed.

Lemma delivered_truthy (self : Entity) kodi rows :
  delivered self kodi = Some rows -> truthy rows = true.
Proof.
  unfold delivered. destruct (connected kodi); [|discriminate].
  destruct (call_method kodi (update_method self) (properties self));
    try discriminate.
  apply fetched_rows_truthy.
Qed.

Lemma updates_rows_spec (ks : list Kodi) (self : Entity) :
  data (updates ks self)
    = match last_delivered ks self with
      | Some rows => rows
      | None => data self
      end
  /\ (last_delivered ks self = None ->
      _state (updates ks self) = Some STATE_ON -> _state self = Some STATE_ON)
  /\ (forall rows, last_delivered ks self = Some rows -> truthy rows = true).
Proof.
  revert self. induction ks as [|k ks IH]; intro self; simpl.
  - repeat split; auto; discriminate.
  - destruct (IH (after (async_update k self))) as (Hd & Hs & Ht).
    destruct (async_update_rows_spec k self) as [Hd1 Hs1].
    destruct (last_delivered ks (after (async_update k self))) as [rows|].
    + repeat split; auto; discriminate.
    + rewrite Hd, Hd1. split; [reflexivity|]. split.
      * intros Hn Hon. auto.
      * intros rows Hr. eapply delivered_truthy; eauto.
Qed.

(** C8: in the state reached from construction by any history of updates,
    if no update was a successful non-empty fetch then the stored rows are
    the empty list, the card sequence is the template alone and the state is
    not [STATE_ON]; and when the state is [STATE_ON] the stored rows are the
    non-empty rows of the most recent successful fetch. *)
Theorem rows_follow_last_fetch (config : KodiConfig) (ks : list Kodi) :
  (last_delivered ks (KodiNextUpTVEntity config) = None ->
   data (updates ks (KodiNextUpTVEntity config)) = PList []
   /\ card_json (updates ks (KodiNextUpTVEntity config)) = Ok [card_template]
   /\ state (updates ks (KodiNextUpTVEntity config)) <> Some STATE_ON)
  /\ (state (updates ks (KodiNextUpTVEntity config)) = Some STATE_ON ->
      exists rows,
        last_delivered ks (KodiNextUpTVEntity config) = Some rows
        /\ data (updates ks (KodiNextUpTVEntity config)) = rows
        /\ truthy rows = true).
Proof.
  destruct (updates_rows_spec ks (KodiNextUpTVEntity config)) as (Hd & Hs & Ht).
  split.
  - intro Hn. rewrite Hn in Hd.
    assert (Hdata : data (updates ks (KodiNextUpTVEntity config)) = PList [])
      by exact Hd.
    split; [exact Hdata|]. split.
    + unfold card_json. rewrite Hdata. reflexivity.
    + intro Hon. specialize (Hs Hn Hon). discriminate.
  - intro Hon.
    destruct (last_delivered ks (KodiNextUpTVEntity config)) as [rows|] eqn:E.
    + exists rows. auto.
    + specialize (Hs eq_refl Hon). discriminate.
Qed.

(** * Properties of [get_web_url] *)

Lemma startswith_app (s t prefix : pystr) :
  startswith s prefix = true -> startswith (s ++ t) prefix = true.
Proof.
  revert s; induction prefix as [|p prefix IH]; intros [|c s]; simpl;
    intro H; try reflexivity; try discriminate.
  apply andb_true_iff in H as [H1 H2].
  rewrite H1. simpl. auto.
Qed.

Lemma lower_app (s t : pystr) : lower (s ++ t) = lower s ++ lower t.
Proof. apply map_app. Qed.

(** The base URL of a constructed entity is an absolute URL. *)
Lemma init_base_web_url_http config props key method (rest : pystr) :
  startswith (lower (base_web_url (init config props key method) ++ rest))
             (lit "http") = true.
Proof.
  unfold init; cbn [base_web_url].
  destruct (cfg_ssl config); rewrite <- !app_assoc, lower_app;
    apply startswith_app; reflexivity.
Qed.

Lemma updates_base_web_url (ks : list Kodi) (self : Entity) :
  base_web_url (updates ks self) = base_web_url self.
Proof. apply updates_frame. Qed.

(** C9: [get_web_url] returns unchanged every path that starts with "http"
    in any letter case, and on every state reached from construction it is
    idempotent: resolving the URL it returned gives that URL again, so the
    base URL is never prefixed twice (an exception of the first call is the
    outcome of both sides). *)
Theorem get_web_url_idempotent (config : KodiConfig) (ks : list Kodi) :
  (forall path,
      startswith (lower path) (lit "http") = true ->
      get_web_url (updates ks (KodiNextUpTVEntity config)) path = Ok path)
  /\ (forall path,
         (url <- get_web_url (updates ks (KodiNextUpTVEntity config)) path ;;
          get_web_url (updates ks (KodiNextUpTVEntity config)) url)
         = get_web_url (updates ks (KodiNextUpTVEntity config)) path).
Proof.
  split.
  - intros path H. unfold get_web_url. now rewrite H.
  - intro path. unfold get_web_url at 1 3.
    destruct (startswith (lower path) (lit "http")) eqn:H.
    + cbn [bind]. unfold get_web_url. now rewrite H.
    + destruct (quote path []) as [inner|]; [|reflexivity]. cbn [bind].
      destruct (quote inner [slash]) as [quoted_path|]; [|reflexivity].
      cbn [bind]. unfold get_web_url.
      rewrite updates_base_web_url. unfold KodiNextUpTVEntity.
      now rewrite init_base_web_url_http.
Qed.

Lemma get_web_url_idempotent_witness :
  get_web_url (updates [empty_answer] (KodiNextUpTVEntity local_config))
              (lit "HTTP://x")
  = Ok (lit "HTTP://x").
Proof.
  apply (proj1 (get_web_url_idempotent local_config [empty_answer])).
  reflexivity.
Defined.

(** * Text stays encodable through the artwork pipeline *)

Ltac bools :=
  repeat match goal with
  | H : (_ && _) = true |- _ => apply andb_true_iff in H; destruct H
  | H : (_ && _) = false |- _ => apply andb_false_iff in H
  | H : (_ || _) = true |- _ => apply orb_true_iff in H
  | H : (_ || _) = false |- _ => apply orb_false_iff in H; destruct H
  | H : negb _ = true |- _ => apply negb_true_iff in H
  | H : negb _ = false |- _ => apply negb_false_iff in H
  | H : (_ <=? _) = true |- _ => apply Z.leb_le in H
  | H : (_ <=? _) = false |- _ => apply Z.leb_gt in H
  | H : (_ <? _) = true |- _ => apply Z.ltb_lt in H
  | H : (_ <? _) = false |- _ => apply Z.ltb_ge in H
  | H : (_ =? _) = true |- _ => apply Z.eqb_eq in H
  | H : (_ =? _) = false |- _ => apply Z.eqb_neq in H
  end.

Lemma scalar_value_iff (c : Z) :
  scalar_value c = true <-> 0 <= c <= 1114111 /\ (c < 55296 \/ 57343 < c).
Proof.
  unfold scalar_value. split.
  - intro H. bools. destruct H0; bools; lia.
  - intros [[H1 H2] H3].
    apply andb_true_iff; split; [apply andb_true_iff; split|].
    + now apply Z.leb_le.
    + now apply Z.leb_le.
    + apply negb_true_iff, andb_false_iff.
      destruct H3; [left; apply Z.leb_gt|right; apply Z.leb_gt]; lia.
Qed.

Lemma scalar_text_app (s t : pystr) :
  scalar_text (s ++ t) = scalar_text s && scalar_text t.
Proof. apply forallb_app. Qed.










Lemma scalar_nonneg (s : pystr) :
  scalar_text s = true -> Forall (fun c => 0 <= c) s.
Proof.
  induction s as [|c s IH]; simpl; intro H; constructor; bools.
  - apply scalar_value_iff in H. lia.
  - auto.
Qed.




Lemma utf8_encode_cp_ok (c : Z) :
  scalar_value c = true ->
  exists bs, utf8_encode_cp c = Ok bs /\ Forall (fun b => 0 <= b <= 255) bs.
Proof.
  intro H. apply scalar_value_iff in H. unfold utf8_encode_cp.
  destruct (c <? 128) eqn:E1; bools.
  { eexists; split; [reflexivity|]. repeat constructor; lia. }
  destruct (c <? 2048) eqn:E2; bools.
  { eexists; split; [reflexivity|].
    assert (0 <= c / 64 < 32) by (split; [apply Z.div_pos|apply Z.div_lt_upper_bound]; lia).
    assert (0 <= c mod 64 < 64) by (apply Z.mod_pos_bound; lia).
    repeat constructor; lia. }
  destruct ((55296 <=? c) && (c <=? 57343)) eqn:E3.
  { bools. lia. }
  destruct (c <? 65536) eqn:E4; bools.
  - eexists; split; [reflexivity|].
    assert (0 <= c / 4096 < 16) by (split; [apply Z.div_pos|apply Z.div_lt_upper_bound]; lia).
    assert (0 <= (c / 64) mod 64 < 64) by (apply Z.mod_pos_bound; lia).
    assert (0 <= c mod 64 < 64) by (apply Z.mod_pos_bound; lia).
    repeat constructor; lia.
  - eexists; split; [reflexivity|].
    assert (0 <= c / 262144 < 5) by (split; [apply Z.div_pos|apply Z.div_lt_upper_bound]; lia).
    assert (0 <= (c / 4096) mod 64 < 64) by (apply Z.mod_pos_bound; lia).
    assert (0 <= (c / 64) mod 64 < 64) by (apply Z.mod_pos_bound; lia).
    assert (0 <= c mod 64 < 64) by (apply Z.mod_pos_bound; lia).
    repeat constructor; lia.
Qed.

Lemma utf8_encode_ok (s : pystr) :
  scalar_text s = true ->
  exists bs, utf8_encode s = Ok bs /\ Forall (fun b => 0 <= b <= 255) bs.
Proof.
  induction s as [|c s IH]; simpl; intro H.
  - exists []. split; [reflexivity|constructor].
  - bools. destruct (utf8_encode_cp_ok c H) as (bs & -> & Hbs).
    destruct (IH H0) as (rest & -> & Hrest).
    exists (bs ++ rest). split; [reflexivity|]. apply Forall_app; auto.
Qed.

Lemma hex_digit_scalar (n : Z) : 0 <= n <= 15 -> scalar_value (hex_digit n) = true.
Proof.
  intro H. apply scalar_value_iff. unfold hex_digit.
  destruct (n <? 10); lia.
Qed.

Lemma quote_byte_scalar (safe : pystr) (b : Z) :
  0 <= b <= 255 -> scalar_text (quote_byte safe b) = true.
Proof.
  intro H. unfold quote_byte.
  destruct ((b <? 128) && (always_safe b || contains_cp b safe)).
  - simpl. rewrite andb_true_r. apply scalar_value_iff. lia.
  - unfold percent_encode. cbn [scalar_text forallb].
    assert (0 <= b mod 16 < 16) by (apply Z.mod_pos_bound; lia).
    assert (0 <= b / 16 < 16)
      by (split; [apply Z.div_pos|apply Z.div_lt_upper_bound]; lia).
    rewrite !hex_digit_scalar by lia. reflexivity.
Qed.

Lemma quote_ok (s safe : pystr) :
  scalar_text s = true ->
  exists q, quote s safe = Ok q /\ scalar_text q = true.
Proof.
  intro H. unfold quote.
  destruct (utf8_encode_ok s H) as (bs & -> & Hbs). cbn [bind].
  eexists; split; [reflexivity|].
  induction Hbs as [|b bs Hb Hbs IH]; [reflexivity|].
  simpl. rewrite scalar_text_app, quote_byte_scalar by exact Hb. exact IH.
Qed.

(** On text without surrogates [get_web_url] returns. *)
Lemma get_web_url_ok (self : Entity) (path : pystr) :
  scalar_text path = true -> exists url, get_web_url self path = Ok url.
Proof.
  intro H. unfold get_web_url.
  destruct (startswith (lower path) (lit "http")); [now exists path|].
  destruct (quote_ok path [] H) as (inner & -> & Hinner). cbn [bind].
  destruct (quote_ok inner [slash] Hinner) as (q & -> & _). cbn [bind].
  eexists; reflexivity.
Qed.

(** * The card of a well-formed row *)












Lemma assoc_dict_set_same k v d : assoc k (dict_set k v d) = Some v.
Proof.
  induction d as [|[k' v'] d IH]; simpl.
  - now rewrite pystr_eqb_refl.
  - destruct (pystr_eqb k' k) eqn:E; simpl.
    + now rewrite pystr_eqb_refl.
    + now rewrite E.
Qed.


Ltac bind_as H x E :=
  match type of H with
  | bind ?c _ = Ok _ =>
    destruct c as [x|] eqn:E; [cbn [bind] in H | discriminate H]
  end.








(** * No exception leaves the entity on the outcomes it handles *)





Lemma rows_follow_last_fetch_witness :
  (data (updates [bare_protocol_error; empty_answer; offline]
                 (KodiNextUpTVEntity local_config)) = PList []
   /\ card_json (updates [bare_protocol_error; empty_answer; offline]
                         (KodiNextUpTVEntity local_config))
      = Ok [card_template]
   /\ state (updates [bare_protocol_error; empty_answer; offline]
                     (KodiNextUpTVEntity local_config)) <> Some STATE_ON)
  /\ exists rows,
       last_delivered [empty_answer; pilot_answer; offline]
                      (KodiNextUpTVEntity local_config) = Some rows
       /\ data (updates [empty_answer; pilot_answer; offline]
                        (KodiNextUpTVEntity local_config)) = rows
       /\ truthy rows = true.
Proof.
  split.
  - apply (proj1 (rows_follow_last_fetch local_config
                    [bare_protocol_error; empty_answer; offline])).
    reflexivity.
  - apply (proj2 (rows_follow_last_fetch local_config
                    [empty_answer; pilot_answer; offline])).
    reflexivity.
Defined.

(** * The runtime model on the values of the scenarios *)

(** [round(8.67, 1)] is the double written [8.7]. *)
Example round_8_67 :
  float_repr (float_round1 (float_of_ratio false 867 100)) = lit "8.7".
Proof. vm_compute. reflexivity. Qed.

(** Rounding acts on the binary value: [round(0.25, 1)] is [0.2] (a tie, to
    even) and [round(0.35, 1)] is [0.3] (the double lies below 0.35). *)
Example round_on_binary_value :
  float_repr (float_round1 (float_of_ratio false 25 100)) = lit "0.2"
  /\ float_repr (float_round1 (float_of_ratio false 35 100)) = lit "0.3".
Proof. split; vm_compute; reflexivity. Qed.

(** [round(-0.04, 1)] is [-0.0], which is falsy. *)
Example round_to_negative_zero :
  round1 (PFloat (float_of_ratio true 4 100)) = Ok (PFloat (S754_zero true))
  /\ truthy (PFloat (S754_zero true)) = false.
Proof. split; vm_compute; reflexivity. Qed.

Example repr_layouts :
  float_repr (float_of_Z 10000000000000000) = lit "1e+16"
  /\ float_repr (float_of_ratio false 1 100000) = lit "1e-05"
  /\ float_repr (float_of_Z 25) = lit "25.0".
Proof. repeat split; vm_compute; reflexivity. Qed.

Example floordiv_floors :
  floordiv (PInt 1500) 60 = Ok (PInt 25)
  /\ floordiv (PInt (-7)) 60 = Ok (PInt (-1))
  /\ floordiv (PFloat (float_of_ratio false 3599 10)) 60
     = Ok (PFloat (float_of_Z 5)).
Proof. repeat split; vm_compute; reflexivity. Qed.

Example format_widens :
  format_0r2 (PInt 3) = Ok (lit "03") /\ format_0r2 (PInt 100) = Ok (lit "100").
Proof. split; reflexivity. Qed.

Example unquote_decodes_utf8 :
  unquote_str (lit "%E2%98%85%2Fa%zz") = [black_star] ++ lit "/a%zz".
Proof. vm_compute. reflexivity. Qed.

Example quote_twice :
  (inner <- quote (lit "path/to/art.jpg") [] ;; quote inner [slash])
  = Ok (lit "path%252Fto%252Fart.jpg").
Proof. vm_compute. reflexivity. Qed.

Example dumps_escapes_the_star :
  json_dumps (PStr ([black_star] ++ lit " 8.7"))
  = [34] ++ lit "\u2605 8.7" ++ [34].
Proof. vm_compute. reflexivity. Qed.

(** * Further properties of the update cycle *)

Lemma async_update_disconnected (kodi : Kodi) (self : Entity) :
  connected kodi = false -> after (async_update kodi self) = self.
Proof. intro H. unfold async_update. now rewrite H. Qed.

(** X1: an update against a device that is not connected leaves the
    instance as it is, so the disconnected updates of a history can be
    dropped: the instance after the history is the instance after its
    connected updates alone. *)
Theorem disconnected_updates_are_skipped (ks : list Kodi) (self : Entity) :
  updates ks self = updates (filter connected ks) self.
Proof.
  revert self. induction ks as [|k ks IH]; intro self; [reflexivity|].
  simpl. destruct (connected k) eqn:Hc.
  - simpl. apply IH.
  - rewrite async_update_disconnected by exact Hc. apply IH.
Qed.

(** X2: when the device is connected and the call raises a transport error
    or any other subclass of [Exception] that is not a protocol error, or
    returns a falsy result (None, an empty mapping), the update ends
    normally, the state is [STATE_OFF] and the stored rows are the ones
    held before. *)
Theorem update_off_on_failure (kodi : Kodi) (self : Entity) :
  connected kodi = true ->
  (call_method kodi (update_method self) (properties self) = RaisedTransportError
   \/ call_method kodi (update_method self) (properties self) = RaisedException
   \/ exists result,
        call_method kodi (update_method self) (properties self) = Returned result
        /\ truthy result = false) ->
  outcome (async_update kodi self) = Ok tt
  /\ state (after (async_update kodi self)) = Some STATE_OFF
  /\ data (after (async_update kodi self)) = data self.
Proof.
  intros Hc [H | [H | (result & H & Ht)]];
    unfold async_update, after_try; rewrite Hc, H; cbn [negb];
    try rewrite Ht; simpl; auto.
Qed.

Lemma update_off_on_failure_witness :
  outcome (async_update crashing tv_with_pilot) = Ok tt
  /\ state (after (async_update crashing tv_with_pilot)) = Some STATE_OFF
  /\ data (after (async_update crashing tv_with_pilot)) = data tv_with_pilot.
Proof.
  apply (update_off_on_failure crashing tv_with_pilot).
  - reflexivity.
  - right; left. reflexivity.
Defined.

Lemma handle_result_sets_state (self : Entity) (result : PyVal) :
  (outcome (_handle_result self result) = Ok tt ->
   _state (after (_handle_result self result)) <> None)
  /\ (forall e, outcome (_handle_result self result) = Raise e ->
      after (_handle_result self result) = self
      /\ logged (_handle_result self result) = []).
Proof.
  unfold _handle_result.
  destruct (py_get result (lit "error") PNone) as [error|];
    [|split; [discriminate|auto]].
  destruct (truthy error).
  - destruct (code <- py_get error (lit "code") PNone ;;
              message <- py_get error (lit "message") PNone ;;
              _ <- percent_d_check code ;;
              Ok [PStr (result_key self); code; message]);
      simpl; split; auto; discriminate.
  - destruct (py_get result (result_key self) (PList [])) as [new_data|];
      [|split; [discriminate|auto]].
    destruct (truthy new_data); simpl; split; auto; discriminate.
Qed.

(** X3: an update that meets a connected device and ends normally always
    leaves a health state; and once a state is set no history of updates
    removes it. *)
Theorem state_is_set_and_stays_set (kodi : Kodi) (ks : list Kodi) (self : Entity) :
  (connected kodi = true ->
   outcome (async_update kodi self) = Ok tt ->
   state (after (async_update kodi self)) <> None)
  /\ (state self <> None -> state (updates ks self) <> None).
Proof.
  assert (Hstep : forall k e,
             _state e <> None -> _state (after (async_update k e)) <> None).
  { intros k e He. unfold async_update.
    destruct (connected k); cbn [negb]; [|exact He].
    destruct (call_method k (update_method e) (properties e)).
    - unfold after_try. destruct (truthy result); [|simpl; discriminate].
      cbn [after].
      destruct (outcome (_handle_result e result)) as [[]|x] eqn:Ho.
      + now apply handle_result_sets_state.
      + destruct (proj2 (handle_result_sets_state e result) x Ho) as [-> _].
        exact He.
    - destruct (protocol_error_payload args); [simpl; discriminate|exact He].
    - simpl; discriminate.
    - simpl; discriminate.
    - exact He. }
  split.
  - intros Hc Ho. unfold async_update in *. rewrite Hc in *. cbn [negb] in *.
    destruct (call_method kodi (update_method self) (properties self)).
    + unfold after_try in *. destruct (truthy result); [|simpl; discriminate].
      cbn [after outcome] in *. now apply handle_result_sets_state.
    + destruct (protocol_error_payload args); [simpl; discriminate|discriminate].
    + simpl; discriminate.
    + simpl; discriminate.
    + discriminate.
  - revert self. induction ks as [|k ks IH]; intros self Hs; [exact Hs|].
    simpl. apply IH. unfold state in *. now apply Hstep.
Qed.

Lemma state_is_set_and_stays_set_witness :
  state (after (async_update empty_answer tv)) <> None
  /\ state (updates [offline; bare_protocol_error; crashing] tv_with_pilot)
     <> None.
Proof.
  split.
  - apply (proj1 (state_is_set_and_stays_set empty_answer [] tv)); reflexivity.
  - apply (proj2 (state_is_set_and_stays_set offline
                    [offline; bare_protocol_error; crashing] tv_with_pilot)).
    discriminate.
Defined.

(** X4: no history of updates empties the stored rows: after it they are
    the rows held before, or a non-empty value. *)
Theorem rows_are_never_cleared (ks : list Kodi) (self : Entity) :
  data (updates ks self) = data self
  \/ truthy (data (updates ks self)) = true.
Proof.
  destruct (updates_rows_spec ks self) as (Hd & _ & Ht).
  destruct (last_delivered ks self) as [rows|].
  - right. rewrite Hd. now apply Ht.
  - left. exact Hd.
Qed.

(** X5: an update that lets an exception through has written no field and
    logged nothing. *)
Theorem failed_update_changes_nothing (kodi : Kodi) (self : Entity) (e : PyExc) :
  outcome (async_update kodi self) = Raise e ->
  after (async_update kodi self) = self
  /\ logged (async_update kodi self) = [].
Proof.
  unfold async_update.
  destruct (connected kodi); cbn [negb]; [|discriminate].
  destruct (call_method kodi (update_method self) (properties self)).
  - unfold after_try. destruct (truthy result); [|discriminate].
    cbn [outcome after logged]. intro H.
    now apply (proj2 (handle_result_sets_state self result) e).
  - destruct (protocol_error_payload args); [discriminate|auto].
  - discriminate.
  - discriminate.
  - auto.
Qed.

Lemma failed_update_changes_nothing_witness :
  after (async_update codeless_error_answer tv_with_pilot) = tv_with_pilot
  /\ logged (async_update codeless_error_answer tv_with_pilot) = [].
Proof.
  apply (failed_update_changes_nothing codeless_error_answer tv_with_pilot
           TypeError).
  reflexivity.
Defined.

(** * Percent-encoding and its inverse *)

Lemma hex_value_hex_digit (n : Z) :
  0 <= n <= 15 -> hex_value (hex_digit n) = Some n.
Proof.
  intro H. unfold hex_digit, hex_value.
  destruct (n <? 10) eqn:E; bools.
  - replace ((48 <=? 48 + n) && (48 + n <=? 57)) with true
      by (symmetry; apply andb_true_iff; split; apply Z.leb_le; lia).
    f_equal. lia.
  - replace ((48 <=? 55 + n) && (55 + n <=? 57)) with false
      by (symmetry; apply andb_false_iff; right; apply Z.leb_gt; lia).
    replace ((65 <=? 55 + n) && (55 + n <=? 70)) with true
      by (symmetry; apply andb_true_iff; split; apply Z.leb_le; lia).
    f_equal. lia.
Qed.

Lemma hex_digit_safe (n : Z) : 0 <= n <= 15 -> always_safe (hex_digit n) = true.
Proof.
  intro H. unfold hex_digit, always_safe.
  destruct (n <? 10) eqn:E; bools.
  - replace ((48 <=? 48 + n) && (48 + n <=? 57)) with true
      by (symmetry; apply andb_true_iff; split; apply Z.leb_le; lia).
    now rewrite !orb_true_r.
  - replace ((65 <=? 55 + n) && (55 + n <=? 90)) with true
      by (symmetry; apply andb_true_iff; split; apply Z.leb_le; lia).
    reflexivity.
Qed.

Lemma byte_nibbles (b : Z) :
  0 <= b <= 255 -> 0 <= b / 16 <= 15 /\ 0 <= b mod 16 <= 15.
Proof.
  intro H.
  assert (0 <= b mod 16 < 16) by (apply Z.mod_pos_bound; lia).
  assert (0 <= b / 16 < 16)
    by (split; [apply Z.div_pos|apply Z.div_lt_upper_bound]; lia).
  lia.
Qed.

(** Unquoting reads back each quoted byte. *)
Lemma unquote_quote_byte (safe : pystr) (b : Z) (rest : pystr) :
  0 <= b <= 255 ->
  contains_cp percent safe = false ->
  unquote_to_bytes (quote_byte safe b ++ rest) = b :: unquote_to_bytes rest.
Proof.
  intros Hb Hsafe. unfold quote_byte.
  destruct ((b <? 128) && (always_safe b || contains_cp b safe)) eqn:E.
  - cbn [app unquote_to_bytes].
    destruct (b =? percent) eqn:Ep; [|reflexivity].
    bools. subst b. destruct H0 as [H0|H0].
    + vm_compute in H0. discriminate.
    + rewrite Hsafe in H0. discriminate.
  - unfold percent_encode. cbn [app unquote_to_bytes].
    rewrite Z.eqb_refl.
    destruct (byte_nibbles b Hb) as [Hh Hl].
    rewrite !hex_value_hex_digit by assumption.
    f_equal. pose proof (Z.div_mod b 16). lia.
Qed.

Lemma unquote_quote_bytes (safe : pystr) (bs rest : list Z) :
  Forall (fun b => 0 <= b <= 255) bs ->
  contains_cp percent safe = false ->
  unquote_to_bytes (flat_map (quote_byte safe) bs ++ rest)
  = bs ++ unquote_to_bytes rest.
Proof.
  intros Hbs Hsafe. induction Hbs as [|b bs Hb Hbs IH]; [reflexivity|].
  simpl. rewrite <- app_assoc, unquote_quote_byte by assumption.
  now rewrite IH.
Qed.

Lemma quote_byte_url_safe (safe : pystr) (b : Z) :
  0 <= b <= 255 ->
  forallb (fun c => url_safe c || contains_cp c safe) (quote_byte safe b) = true.
Proof.
  intro Hb. unfold quote_byte.
  destruct ((b <? 128) && (always_safe b || contains_cp b safe)) eqn:E.
  - bools. simpl. rewrite andb_true_r. unfold url_safe.
    destruct H0 as [-> | ->]; [reflexivity|apply orb_true_r].
  - unfold percent_encode. destruct (byte_nibbles b Hb) as [Hh Hl].
    cbn [forallb]. unfold url_safe.
    rewrite !hex_digit_safe by assumption. reflexivity.
Qed.

(** * UTF-8: decoding reads back what encoding wrote *)

Lemma div_bounds (c d lo hi : Z) :
  0 < d -> lo * d <= c < (hi + 1) * d -> lo <= c / d <= hi.
Proof.
  intros Hd [H1 H2]. split.
  - apply Z.div_le_lower_bound; lia.
  - apply Z.lt_succ_r. apply Z.div_lt_upper_bound; lia.
Qed.

Lemma utf8_decode_from_cons (st : Utf8State) (b : Z) (bs : list Z) :
  utf8_decode_from st (b :: bs)
  = fst (utf8_step st b) ++ utf8_decode_from (snd (utf8_step st b)) bs.
Proof. simpl. now destruct (utf8_step st b). Qed.

Ltac split_ifs :=
  repeat match goal with
  | |- context [if ?c then _ else _] =>
    let E := fresh "E" in destruct c eqn:E
  end; bools.

Lemma utf8_start_ascii (b : Z) : b < 128 -> utf8_start b = ([b], utf8_idle).
Proof. intro H. unfold utf8_start. split_ifs; try lia; reflexivity. Qed.

Lemma utf8_start_2 (b : Z) :
  194 <= b <= 223 -> utf8_start b = ([], mkUtf8 1 (b - 192) 128 191).
Proof. intro H. unfold utf8_start. split_ifs; try lia; reflexivity. Qed.

Lemma utf8_start_3 (b : Z) :
  224 <= b <= 239 ->
  utf8_start b
  = ([], mkUtf8 2 (b - 224) (if b =? 224 then 160 else 128)
                  (if b =? 237 then 159 else 191)).
Proof. intro H. unfold utf8_start. split_ifs; try lia; reflexivity. Qed.

Lemma utf8_start_4 (b : Z) :
  240 <= b <= 244 ->
  utf8_start b
  = ([], mkUtf8 3 (b - 240) (if b =? 240 then 144 else 128)
                  (if b =? 244 then 143 else 191)).
Proof. intro H. unfold utf8_start. split_ifs; try lia; reflexivity. Qed.

Lemma utf8_step_last (cp lo hi b : Z) :
  lo <= b <= hi ->
  utf8_step (mkUtf8 1 cp lo hi) b = ([cp * 64 + (b - 128)], utf8_idle).
Proof.
  intro H. unfold utf8_step. cbn [u_need u_lo u_hi u_cp Z.eqb].
  replace ((lo <=? b) && (b <=? hi)) with true
    by (symmetry; apply andb_true_iff; split; apply Z.leb_le; lia).
  reflexivity.
Qed.

Lemma utf8_step_more (need cp lo hi b : Z) :
  2 <= need -> lo <= b <= hi ->
  utf8_step (mkUtf8 need cp lo hi) b
  = ([], mkUtf8 (need - 1) (cp * 64 + (b - 128)) 128 191).
Proof.
  intros Hn H. unfold utf8_step. cbn [u_need u_lo u_hi u_cp].
  replace (need =? 0) with false by (symmetry; apply Z.eqb_neq; lia).
  replace (need =? 1) with false by (symmetry; apply Z.eqb_neq; lia).
  replace ((lo <=? b) && (b <=? hi)) with true
    by (symmetry; apply andb_true_iff; split; apply Z.leb_le; lia).
  reflexivity.
Qed.

Lemma Ok_inj {A} (a b : A) : Ok a = Ok b -> a = b.
Proof. congruence. Qed.

Lemma utf8_decode_encode_cp (c : Z) (bs rest : list Z) :
  scalar_value c = true ->
  utf8_encode_cp c = Ok bs ->
  utf8_decode_from utf8_idle (bs ++ rest) = c :: utf8_decode_from utf8_idle rest.
Proof.
  intros Hc. apply scalar_value_iff in Hc. unfold utf8_encode_cp.
  destruct (c <? 128) eqn:E1.
  { intro Hbs; apply Ok_inj in Hbs; subst bs; bools. cbn [app].
    rewrite utf8_decode_from_cons. change (utf8_step utf8_idle c) with (utf8_start c).
    now rewrite utf8_start_ascii. }
  destruct (c <? 2048) eqn:E2.
  { intro Hbs; apply Ok_inj in Hbs; subst bs; bools.
    pose proof (Z.div_mod c 64 ltac:(lia)) as Hdm.
    assert (0 <= c mod 64 < 64) by (apply Z.mod_pos_bound; lia).
    assert (2 <= c / 64 <= 31) by (apply div_bounds; lia).
    cbn [app]. rewrite utf8_decode_from_cons.
    change (utf8_step utf8_idle (192 + c / 64)) with (utf8_start (192 + c / 64)).
    rewrite utf8_start_2 by lia. cbn [fst snd app].
    rewrite utf8_decode_from_cons, utf8_step_last by lia. cbn [fst snd app].
    f_equal. lia. }
  destruct ((55296 <=? c) && (c <=? 57343)) eqn:E3; [discriminate|].
  destruct (c <? 65536) eqn:E4.
  - intro Hbs; apply Ok_inj in Hbs; subst bs; bools.
    pose proof (Z.div_mod c 64 ltac:(lia)) as Hdm.
    pose proof (Z.div_mod (c / 64) 64 ltac:(lia)) as Hdm2.
    assert (Hq : c / 4096 = c / 64 / 64) by (rewrite Z.div_div by lia; reflexivity).
    assert (0 <= c mod 64 < 64) by (apply Z.mod_pos_bound; lia).
    assert (0 <= (c / 64) mod 64 < 64) by (apply Z.mod_pos_bound; lia).
    assert (0 <= c / 4096 <= 15) by (apply div_bounds; lia).
    cbn [app]. rewrite utf8_decode_from_cons.
    change (utf8_step utf8_idle (224 + c / 4096))
      with (utf8_start (224 + c / 4096)).
    rewrite utf8_start_3 by lia. cbn [fst snd app].
    rewrite utf8_decode_from_cons, utf8_step_more by (split_ifs; lia).
    cbn [fst snd app].
    rewrite utf8_decode_from_cons, utf8_step_last by lia. cbn [fst snd app].
    f_equal. lia.
  - intro Hbs; apply Ok_inj in Hbs; subst bs; bools.
    pose proof (Z.div_mod c 64 ltac:(lia)) as Hdm.
    pose proof (Z.div_mod (c / 64) 64 ltac:(lia)) as Hdm2.
    pose proof (Z.div_mod (c / 4096) 64 ltac:(lia)) as Hdm3.
    assert (Hq : c / 4096 = c / 64 / 64) by (rewrite Z.div_div by lia; reflexivity).
    assert (Hq2 : c / 262144 = c / 4096 / 64) by (rewrite Z.div_div by lia; reflexivity).
    assert (0 <= c mod 64 < 64) by (apply Z.mod_pos_bound; lia).
    assert (0 <= (c / 64) mod 64 < 64) by (apply Z.mod_pos_bound; lia).
    assert (0 <= (c / 4096) mod 64 < 64) by (apply Z.mod_pos_bound; lia).
    assert (0 <= c / 262144 <= 4) by (apply div_bounds; lia).
    cbn [app]. rewrite utf8_decode_from_cons.
    change (utf8_step utf8_idle (240 + c / 262144))
      with (utf8_start (240 + c / 262144)).
    rewrite utf8_start_4 by lia. cbn [fst snd app].
    rewrite utf8_decode_from_cons, utf8_step_more by (split_ifs; lia).
    cbn [fst snd app].
    rewrite utf8_decode_from_cons, utf8_step_more by lia.
    cbn [fst snd app].
    rewrite utf8_decode_from_cons, utf8_step_last by lia. cbn [fst snd app].
    f_equal. lia.
Qed.

Lemma utf8_decode_encode (s : pystr) (bs rest : list Z) :
  scalar_text s = true ->
  utf8_encode s = Ok bs ->
  utf8_decode_from utf8_idle (bs ++ rest) = s ++ utf8_decode_from utf8_idle rest.
Proof.
  revert bs; induction s as [|c s IH]; intros bs Hs; simpl.
  - intro H. apply Ok_inj in H. now subst.
  - simpl in Hs. bools.
    destruct (utf8_encode_cp c) as [b1|] eqn:Ec; [|discriminate]. cbn [bind].
    destruct (utf8_encode s) as [b2|] eqn:Es; [|discriminate]. cbn [bind].
    intro Hbs. apply Ok_inj in Hbs. subst bs.
    rewrite <- app_assoc.
    rewrite (utf8_decode_encode_cp c b1 _ H Ec). f_equal. now apply IH.
Qed.

Lemma is_ascii_scalar (s : pystr) :
  forallb is_ascii s = true -> scalar_text s = true.
Proof.
  induction s as [|c s IH]; simpl; auto.
  intro H. bools. rewrite IH by assumption. rewrite andb_true_r.
  unfold is_ascii in H. bools. apply scalar_value_iff. lia.
Qed.

Lemma utf8_encode_ascii (s : pystr) :
  forallb is_ascii s = true -> utf8_encode s = Ok s.
Proof.
  induction s as [|c s IH]; simpl; auto.
  intro H. bools. rewrite IH by assumption.
  unfold is_ascii in H. bools. unfold utf8_encode_cp.
  replace (c <? 128) with true by (symmetry; apply Z.ltb_lt; lia).
  reflexivity.
Qed.

Lemma utf8_decode_ascii (s : pystr) :
  forallb is_ascii s = true -> utf8_decode s = s.
Proof.
  intro H. unfold utf8_decode.
  rewrite <- (app_nil_r s) at 1.
  rewrite (utf8_decode_encode s s []).
  - simpl. apply app_nil_r.
  - now apply is_ascii_scalar.
  - now apply utf8_encode_ascii.
Qed.

Lemma unquote_to_bytes_plain (s rest : pystr) :
  contains_cp percent s = false ->
  unquote_to_bytes (s ++ rest) = s ++ unquote_to_bytes rest.
Proof.
  induction s as [|c s IH]; [reflexivity|].
  unfold contains_cp. cbn [existsb]. intro H. bools.
  cbn [app unquote_to_bytes].
  replace (c =? percent) with false by (symmetry; apply Z.eqb_neq; congruence).
  f_equal. now apply IH.
Qed.

Lemma unquote_runs_ascii (s run : pystr) :
  forallb is_ascii s = true ->
  unquote_runs s run = utf8_decode (unquote_to_bytes (rev run ++ s)).
Proof.
  revert run; induction s as [|c s IH]; intros run H.
  - cbn [unquote_runs]. now rewrite app_nil_r.
  - cbn [forallb] in H. cbn [unquote_runs]. bools. unfold is_ascii in H. bools.
    replace (c <? 128) with true by (symmetry; apply Z.ltb_lt; lia).
    rewrite IH by assumption. cbn [rev]. now rewrite <- app_assoc.
Qed.

(** On an ASCII string [unquote] is the decoding of its unquoted bytes. *)
Lemma unquote_str_ascii (s : pystr) :
  forallb is_ascii s = true ->
  unquote_str s = utf8_decode (unquote_to_bytes s).
Proof.
  intro H. unfold unquote_str.
  destruct (contains_cp percent s) eqn:E; cbn [negb].
  - now rewrite unquote_runs_ascii.
  - rewrite <- (app_nil_r s) at 2.
    rewrite unquote_to_bytes_plain by exact E. simpl. rewrite app_nil_r.
    symmetry. now apply utf8_decode_ascii.
Qed.

Lemma quote_byte_ascii (safe : pystr) (b : Z) :
  0 <= b <= 255 -> forallb is_ascii (quote_byte safe b) = true.
Proof.
  intro Hb. unfold quote_byte.
  destruct ((b <? 128) && (always_safe b || contains_cp b safe)) eqn:E.
  - bools. simpl. rewrite andb_true_r. unfold is_ascii.
    apply andb_true_iff; split; [apply Z.leb_le|apply Z.ltb_lt]; lia.
  - unfold percent_encode. destruct (byte_nibbles b Hb) as [Hh Hl].
    assert (Hd : forall n, 0 <= n <= 15 -> is_ascii (hex_digit n) = true).
    { intros n Hn. unfold is_ascii, hex_digit.
      destruct (n <? 10); apply andb_true_iff;
        split; try apply Z.leb_le; try apply Z.ltb_lt; lia. }
    cbn [forallb]. rewrite !Hd by assumption. reflexivity.
Qed.

Lemma flat_map_forallb {A B} (p : B -> bool) (f : A -> list B) (l : list A) :
  Forall (fun a => forallb p (f a) = true) l ->
  forallb p (flat_map f l) = true.
Proof.
  induction 1 as [|a l Ha Hl IH]; [reflexivity|].
  simpl. rewrite forallb_app, Ha, IH. reflexivity.
Qed.

(** What [quote] returns on text without surrogates: an ASCII string that
    [unquote] reads back. *)
Lemma quote_unquote (s safe q : pystr) :
  scalar_text s = true ->
  contains_cp percent (filter (fun c => c <? 128) safe) = false ->
  quote s safe = Ok q ->
  unquote_str q = s
  /\ forallb is_ascii q = true
  /\ exists bs,
       utf8_encode s = Ok bs
       /\ Forall (fun b => 0 <= b <= 255) bs
       /\ q = flat_map (quote_byte (filter (fun c => c <? 128) safe)) bs.
Proof.
  intros Hs Hsafe Hq. unfold quote in Hq.
  destruct (utf8_encode_ok s Hs) as (bs & Hbs & Hbytes).
  rewrite Hbs in Hq. cbn [bind] in Hq. apply Ok_inj in Hq. subst q.
  assert (Hascii : forallb is_ascii
                     (flat_map (quote_byte (filter (fun c => c <? 128) safe)) bs)
                   = true).
  { apply flat_map_forallb.
    eapply Forall_impl; [|exact Hbytes]. intros b Hb. now apply quote_byte_ascii. }
  split; [|split; [exact Hascii|eauto]].
  rewrite unquote_str_ascii by exact Hascii.
  rewrite <- (app_nil_r (flat_map _ bs)).
  rewrite unquote_quote_bytes by assumption.
  unfold utf8_decode. cbn [unquote_to_bytes].
  rewrite (utf8_decode_encode s bs [] Hs Hbs). simpl. apply app_nil_r.
Qed.

Lemma quote_url_safe (safe : pystr) (bs : list Z) :
  Forall (fun b => 0 <= b <= 255) bs ->
  (forall b, In b bs -> contains_cp b safe = true -> url_safe b = true) ->
  forallb url_safe (flat_map (quote_byte safe) bs) = true.
Proof.
  intros Hbs Hsafe. apply flat_map_forallb.
  apply Forall_forall. intros b Hin.
  rewrite Forall_forall in Hbs. specialize (Hbs b Hin).
  unfold quote_byte.
  destruct ((b <? 128) && (always_safe b || contains_cp b safe)) eqn:E.
  - bools. simpl. rewrite andb_true_r.
    destruct H0 as [H0|H0].
    + unfold url_safe. now rewrite H0.
    + now apply Hsafe.
  - unfold percent_encode. destruct (byte_nibbles b Hbs) as [Hh Hl].
    cbn [forallb]. unfold url_safe.
    rewrite !hex_digit_safe by assumption. reflexivity.
Qed.

(** The URL of a relative path without surrogates: the base URL followed by
    a string of unreserved characters and [%] that unquoting twice turns
    back into the path. *)
Lemma get_web_url_relative (self : Entity) (path : pystr) :
  scalar_text path = true ->
  startswith (lower path) (lit "http") = false ->
  exists q,
    get_web_url self path = Ok (base_web_url self ++ q)
    /\ forallb url_safe q = true
    /\ unquote_str (unquote_str q) = path.
Proof.
  intros Hs Hrel. unfold get_web_url. rewrite Hrel.
  destruct (quote_ok path [] Hs) as (inner & Hinner & Hsc).
  destruct (quote_unquote path [] inner Hs eq_refl Hinner)
    as (Hback1 & Hascii1 & bs1 & Hbs1 & Hbytes1 & Hq1).
  destruct (quote_ok inner [slash] Hsc) as (q & Hq & _).
  destruct (quote_unquote inner [slash] q Hsc eq_refl Hq)
    as (Hback2 & Hascii2 & bs2 & Hbs2 & Hbytes2 & Hq2).
  rewrite Hinner. cbn [bind]. rewrite Hq. cbn [bind].
  exists q. split; [reflexivity|]. split; [|now rewrite Hback2, Hback1].
  assert (Hsafe1 : forallb url_safe inner = true).
  { rewrite Hq1. apply quote_url_safe; [exact Hbytes1|].
    intros b _ H. discriminate H. }
  rewrite utf8_encode_ascii in Hbs2 by exact Hascii1.
  apply Ok_inj in Hbs2. subst bs2. rewrite Hq2.
  apply quote_url_safe; [exact Hbytes2|].
  intros b Hin _. rewrite forallb_forall in Hsafe1. now apply Hsafe1.
Qed.

(** * Further properties of [get_web_url] *)

Lemma utf8_encode_surrogate (s : pystr) :
  forallb code_point s = true ->
  scalar_text s = false ->
  utf8_encode s = Raise UnicodeEncodeError.
Proof.
  induction s as [|c s IH]; [discriminate|].
  cbn [forallb scalar_text utf8_encode]. intros Hcp Hs. bools.
  destruct (scalar_value c) eqn:Hc.
  - destruct (utf8_encode_cp_ok c Hc) as (bs & -> & _). cbn [bind].
    rewrite IH; [reflexivity|assumption|].
    destruct Hs as [Hs|Hs]; [discriminate|exact Hs].
  - unfold code_point in H. unfold scalar_value in Hc. bools.
    destruct Hc as [Hc|Hc]; bools; [destruct Hc; bools; lia|].
    unfold utf8_encode_cp.
    replace (c <? 128) with false by (symmetry; apply Z.ltb_ge; lia).
    replace (c <? 2048) with false by (symmetry; apply Z.ltb_ge; lia).
    replace ((55296 <=? c) && (c <=? 57343)) with true
      by (symmetry; apply andb_true_iff; split; apply Z.leb_le; lia).
    reflexivity.
Qed.

(** X6: on a string of code points, [get_web_url] returns when the path
    starts with "http" in any letter case or holds no surrogate, and
    otherwise (a relative path with a lone surrogate) it raises
    [UnicodeEncodeError]. *)
Theorem get_web_url_raises_on_lone_surrogate (self : Entity) (path : pystr) :
  forallb code_point path = true ->
  (startswith (lower path) (lit "http") = true \/ scalar_text path = true ->
   exists url, get_web_url self path = Ok url)
  /\ (startswith (lower path) (lit "http") = false ->
      scalar_text path = false ->
      get_web_url self path = Raise UnicodeEncodeError).
Proof.
  intro Hcp. split.
  - intros [H|H].
    + exists path. unfold get_web_url. now rewrite H.
    + now apply get_web_url_ok.
  - intros Hrel Hs. unfold get_web_url, quote. rewrite Hrel.
    now rewrite utf8_encode_surrogate.
Qed.

Lemma get_web_url_raises_on_lone_surrogate_witness :
  (exists url, get_web_url tv (lit "path/to/art.jpg") = Ok url)
  /\ get_web_url tv surrogate_path = Raise UnicodeEncodeError.
Proof.
  split.
  - apply (proj1 (get_web_url_raises_on_lone_surrogate tv
                    (lit "path/to/art.jpg") eq_refl)).
    right. reflexivity.
  - apply (proj2 (get_web_url_raises_on_lone_surrogate tv surrogate_path
                    eq_refl)); reflexivity.
Defined.

(** X7: for a relative path without surrogates, the URL returned is the
    base URL followed by unreserved characters (letters, digits and
    [_.-~]) and [%] only: no slash, colon or other delimiter of the path
    reaches the URL unescaped. *)
Theorem relative_url_is_escaped (self : Entity) (path : pystr) :
  scalar_text path = true ->
  startswith (lower path) (lit "http") = false ->
  exists q,
    get_web_url self path = Ok (base_web_url self ++ q)
    /\ forallb url_safe q = true.
Proof.
  intros Hs Hrel.
  destruct (get_web_url_relative self path Hs Hrel) as (q & H1 & H2 & _).
  eauto.
Qed.

Lemma relative_url_is_escaped_witness :
  exists q,
    get_web_url tv (lit "path/to/art.jpg") = Ok (base_web_url tv ++ q)
    /\ forallb url_safe q = true.
Proof.
  apply (relative_url_is_escaped tv (lit "path/to/art.jpg")); reflexivity.
Defined.

(** X8: the double percent-encoding loses nothing: unquoting twice what
    follows the base URL gives back the relative path, so two relative
    paths without surrogates that get the same URL are the same path. *)
Theorem relative_url_decodes_to_path (self : Entity) (p1 p2 url : pystr) :
  scalar_text p1 = true ->
  startswith (lower p1) (lit "http") = false ->
  get_web_url self p1 = Ok url ->
  (exists q, url = base_web_url self ++ q /\ unquote_str (unquote_str q) = p1)
  /\ (scalar_text p2 = true ->
      startswith (lower p2) (lit "http") = false ->
      get_web_url self p2 = Ok url ->
      p1 = p2).
Proof.
  intros Hs1 Hr1 Hu1.
  destruct (get_web_url_relative self p1 Hs1 Hr1) as (q1 & H1 & _ & Hb1).
  rewrite H1 in Hu1. apply Ok_inj in Hu1. subst url.
  split; [eauto|].
  intros Hs2 Hr2 Hu2.
  destruct (get_web_url_relative self p2 Hs2 Hr2) as (q2 & H2 & _ & Hb2).
  rewrite H2 in Hu2. apply Ok_inj in Hu2. apply app_inv_head in Hu2.
  congruence.
Qed.

Lemma relative_url_decodes_to_path_witness :
  (exists q,
      lit "http://kodi.local:8080/image/image%3A%2F%2Fpath%252Fto%252Fart.jpg"
      = base_web_url tv ++ q
      /\ unquote_str (unquote_str q) = lit "path/to/art.jpg")
  /\ lit "path/to/art.jpg" = lit "path/to/art.jpg".
Proof.
  destruct (relative_url_decodes_to_path tv (lit "path/to/art.jpg")
              (lit "path/to/art.jpg")
              (lit "http://kodi.local:8080/image/image%3A%2F%2Fpath%252Fto%252Fart.jpg")
              eq_refl eq_refl eq_refl) as [Hq Hsame].
  split; [exact Hq|].
  apply Hsame; reflexivity.
Defined.

(** * The artwork pipeline on the paths the device sends *)

Lemma lstrip_app (ch : Z) (u v : pystr) :
  lstrip ch (u ++ v)
  = if forallb (Z.eqb ch) u then lstrip ch v else lstrip ch u ++ v.
Proof.
  induction u as [|c u IH]; [reflexivity|].
  cbn [app lstrip forallb]. rewrite (Z.eqb_sym ch c).
  destruct (c =? ch); [exact IH|reflexivity].
Qed.

Lemma lstrip_all (ch : Z) (u : pystr) :
  forallb (Z.eqb ch) u = true -> lstrip ch u = [].
Proof.
  induction u as [|c u IH]; [reflexivity|].
  cbn [lstrip forallb]. rewrite (Z.eqb_sym ch c).
  destruct (c =? ch); [exact IH|discriminate].
Qed.

(** One more trailing [ch] makes no difference to [strip]. *)
Lemma strip_trailing (ch : Z) (u : pystr) :
  strip ch (u ++ [ch]) = strip ch u.
Proof.
  unfold strip. rewrite lstrip_app.
  destruct (forallb (Z.eqb ch) u) eqn:E.
  - rewrite (lstrip_all ch u E). cbn [lstrip]. now rewrite Z.eqb_refl.
  - rewrite rev_app_distr. cbn [rev app lstrip]. now rewrite Z.eqb_refl.
Qed.

(** X9: the device wraps an artwork path [u] as [image://], the
    percent-encoding of [u], and a slash; for every [u] without surrogates
    the URL of that artwork value is [get_web_url] of [u] without its
    leading and trailing slashes: the wrapper is undone exactly. *)
Theorem art_url_unwraps_image_uri (self : Entity) (u q : pystr) :
  scalar_text u = true ->
  quote u [] = Ok q ->
  art_url self (PStr (lit "image://" ++ q ++ lit "/"))
  = get_web_url self (strip slash u).
Proof.
  intros Hs Hq.
  destruct (quote_unquote u [] q Hs eq_refl Hq)
    as (_ & Hascii & bs & Hbs & Hbytes & Hqbs).
  unfold art_url, unquote. cbn [bind].
  assert (Hun : unquote_str (lit "image://" ++ q ++ lit "/")
                = lit "image://" ++ u ++ lit "/").
  { rewrite unquote_str_ascii
      by (rewrite !forallb_app, Hascii; reflexivity).
    rewrite unquote_to_bytes_plain by reflexivity.
    rewrite Hqbs, unquote_quote_bytes by (assumption || reflexivity).
    unfold utf8_decode.
    rewrite (utf8_decode_encode (lit "image://") (lit "image://"))
      by reflexivity.
    f_equal.
    rewrite (utf8_decode_encode u bs) by assumption.
    reflexivity. }
  rewrite Hun.
  replace (skipn 8 (lit "image://" ++ u ++ lit "/")) with (u ++ [slash])
    by reflexivity.
  now rewrite strip_trailing.
Qed.

Lemma art_url_unwraps_image_uri_witness :
  art_url tv (PStr (lit "image://" ++ lit "%2Fpath%2Fto%2Fart.jpg" ++ lit "/"))
  = get_web_url tv (strip slash (lit "/path/to/art.jpg")).
Proof.
  apply (art_url_unwraps_image_uri tv (lit "/path/to/art.jpg")
           (lit "%2Fpath%2Fto%2Fart.jpg")); reflexivity.
Defined.

(** * Further properties of the display attribute *)

Lemma mapM_raises {A B} (f : A -> Res B) (l : list A) (x : A) :
  In x l -> raises (f x) = true -> raises (mapM f l) = true.
Proof.
  induction l as [|y l IH]; [contradiction|].
  intros [->|Hin] Hx; simpl.
  - destruct (f x); [discriminate|reflexivity].
  - destruct (f y); [|reflexivity]. cbn [bind].
    specialize (IH Hin Hx). destruct (mapM f l); [discriminate|reflexivity].
Qed.

(** X10: the read of the display attribute is all or nothing: when the loop
    body raises on one of the stored rows, the read raises, whatever the
    other rows are. *)
Theorem one_bad_row_fails_the_read (self : Entity) (shows : list PyVal) (show : PyVal) :
  data self = PList shows ->
  In show shows ->
  raises (card_of self show) = true ->
  raises (outcome (extra_state_attributes self)) = true.
Proof.
  intros Hdata Hin Hbad.
  unfold extra_state_attributes, card_json. cbn [outcome].
  rewrite Hdata. cbn [py_iter bind].
  pose proof (mapM_raises (card_of self) shows show Hin Hbad) as H.
  destruct (mapM (card_of self) shows); [discriminate|reflexivity].
Qed.

Lemma one_bad_row_fails_the_read_witness :
  raises (outcome (extra_state_attributes tv_with_mixed_rows)) = true.
Proof.
  apply (one_bad_row_fails_the_read tv_with_mixed_rows
           [pilot_row; title_only_row] title_only_row).
  - reflexivity.
  - right; left; reflexivity.
  - reflexivity.
Defined.

(** X11: every card the loop produces is a mapping of exactly eight entries
    in a fixed order: episode (the row's title), fanart (a string), flag (a
    boolean), number (a string that starts with S), poster (a string),
    runtime, title (the row's show title) and rating. *)
Theorem card_has_eight_entries (self : Entity) (show card : PyVal) :
  card_of self show = Ok card ->
  exists title fanart flag number poster runtime showtitle rating,
    card = PDict [(lit "episode", title);
                  (lit "fanart", PStr fanart);
                  (lit "flag", PBool flag);
                  (lit "number", PStr (lit "S" ++ number));
                  (lit "poster", PStr poster);
                  (lit "runtime", runtime);
                  (lit "title", showtitle);
                  (lit "rating", rating)]
    /\ py_getitem show (lit "title") = Ok title
    /\ py_getitem show (lit "showtitle") = Ok showtitle.
Proof.
  intro H. unfold card_of in H.
  bind_as H title Etitle. bind_as H playcount Eplaycount.
  bind_as H season Eseason. bind_as H episode Eepisode.
  bind_as H season_str Ess. bind_as H episode_str Ees.
  bind_as H runtime Eruntime. bind_as H minutes Eminutes.
  bind_as H showtitle Eshowtitle.
  bind_as H raw Eraw. bind_as H rounded Erounded.
  bind_as H art Eart. bind_as H fanart Efanart. bind_as H poster Eposter.
  bind_as H card1 Ecard1. bind_as H card2 Ecard2.
  apply Ok_inj in H. subst card.
  assert (H1 : exists f,
             card1 = [(lit "episode", title); (lit "fanart", PStr f);
                      (lit "flag", PBool (eq_zero playcount));
                      (lit "number",
                       PStr (lit "S" ++ season_str ++ lit "E" ++ episode_str));
                      (lit "poster", PStr []); (lit "runtime", minutes);
                      (lit "title", showtitle);
                      (lit "rating", card_rating rounded)]).
  { destruct (truthy fanart); [bind_as Ecard1 url Eurl|];
      apply Ok_inj in Ecard1; subst card1; eexists; reflexivity. }
  destruct H1 as [f ->].
  assert (H2 : exists p,
             card2 = [(lit "episode", title); (lit "fanart", PStr f);
                      (lit "flag", PBool (eq_zero playcount));
                      (lit "number",
                       PStr (lit "S" ++ season_str ++ lit "E" ++ episode_str));
                      (lit "poster", PStr p); (lit "runtime", minutes);
                      (lit "title", showtitle);
                      (lit "rating", card_rating rounded)]).
  { destruct (truthy poster); [bind_as Ecard2 url Eurl|];
      apply Ok_inj in Ecard2; subst card2; eexists; reflexivity. }
  destruct H2 as [p ->].
  repeat eexists.
Qed.

Lemma card_has_eight_entries_witness :
  exists title fanart flag number poster runtime showtitle rating,
    unrated_card = PDict [(lit "episode", title);
                          (lit "fanart", PStr fanart);
                          (lit "flag", PBool flag);
                          (lit "number", PStr (lit "S" ++ number));
                          (lit "poster", PStr poster);
                          (lit "runtime", runtime);
                          (lit "title", showtitle);
                          (lit "rating", rating)]
    /\ py_getitem unrated_row (lit "title") = Ok title
    /\ py_getitem unrated_row (lit "showtitle") = Ok showtitle.
Proof.
  apply (card_has_eight_entries tv unrated_row unrated_card). reflexivity.
Defined.

Lemma py_getitem_field (show : PyVal) (k : pystr) (v : PyVal) :
  py_getitem show k = Ok v -> field show k = Some v.
Proof.
  unfold py_getitem, field. destruct show; try discriminate.
  destruct (assoc k d); [|discriminate]. now intros [= ->].
Qed.

(** X12: a row that lacks one of the eight keys the loop reads (title,
    playcount, season, episode, runtime, showtitle, rating, art), or that
    is not a mapping at all, makes the loop body raise. *)
Theorem missing_key_raises (self : Entity) (show : PyVal) (k : pystr) :
  In k row_keys ->
  field show k = None ->
  raises (card_of self show) = true.
Proof.
  intros Hk Hnone.
  destruct (card_of self show) as [card|] eqn:H; [|reflexivity].
  exfalso. unfold card_of in H.
  bind_as H title Etitle. bind_as H playcount Eplaycount.
  bind_as H season Eseason. bind_as H episode Eepisode.
  bind_as H season_str Ess. bind_as H episode_str Ees.
  bind_as H runtime Eruntime. bind_as H minutes Eminutes.
  bind_as H showtitle Eshowtitle.
  bind_as H raw Eraw. bind_as H rounded Erounded.
  bind_as H art Eart.
  apply py_getitem_field in Etitle, Eplaycount, Eseason, Eepisode, Eruntime,
    Eshowtitle, Eraw, Eart.
  unfold row_keys in Hk. cbn [In] in Hk.
  repeat (destruct Hk as [<-|Hk]; [congruence|]).
  exact Hk.
Qed.

Lemma missing_key_raises_witness :
  raises (card_of tv title_only_row) = true.
Proof.
  apply (missing_key_raises tv title_only_row (lit "rating")).
  - unfold row_keys. cbn [In]. do 6 right. left. reflexivity.
  - reflexivity.
Defined.

(** * Setting the platform up *)

Section SensorProperties.

Variable DATA_KODI : pystr.
Variable CONF_HOST : pystr.
Variable find_matching_config_entry :
  HomeAssistant -> pystr -> Res (option ConfigEntry).
Variable find_matching_config_entry_for_host :
  HomeAssistant -> PyVal -> Res (option ConfigEntry).
Variable as_dict : ConfigEntry -> PyVal.

(** The shared tail adds one entity built from the configuration it is
    given, or adds nothing. *)
Lemma add_tv_entity_cases (hass : HomeAssistant) (kodi_id : pystr)
    (config : Res KodiConfig) :
  let r := add_tv_entity DATA_KODI as_dict hass kodi_id config in
  (exists data kodi c,
      domain_data (kodi_data hass) kodi_id = Ok data
      /\ getitem data DATA_KODI = Ok kodi
      /\ config = Ok c
      /\ r = mkSetup [(kodi, KodiNextUpTVEntity c)] [] (Ok tt))
  \/ (domain_data (kodi_data hass) kodi_id = Raise KeyError
      /\ r = mkSetup [] [missing_kodi_data as_dict hass] (Ok tt))
  \/ (exists e, r = mkSetup [] [] (Raise e)).
Proof.
  unfold add_tv_entity.
  destruct (domain_data (kodi_data hass) kodi_id) as [data|e] eqn:Ed.
  - destruct (getitem data DATA_KODI) as [kodi|e] eqn:Ek.
    + destruct config as [c|e].
      * left. exists data, kodi, c. auto.
      * right; right. eauto.
    + right; right. eauto.
  - destruct e; try (right; right; eexists; reflexivity).
    right; left. auto.
Qed.

(** X13: when [async_setup_platform] returns normally it has either added
    nothing and logged exactly one error (no config entry for the host,
    or no data of the Kodi integration for that entry), or logged nothing
    and added exactly one entity, built from the [data] of the entry
    found for the host and with the handle stored under [DATA_KODI] for
    that entry. *)
Theorem setup_platform_adds_one_or_logs
    (hass : HomeAssistant) (config : list (pystr * PyVal)) :
  setup_outcome (async_setup_platform DATA_KODI CONF_HOST
                   find_matching_config_entry_for_host as_dict hass config)
  = Ok tt ->
  (added (async_setup_platform DATA_KODI CONF_HOST
            find_matching_config_entry_for_host as_dict hass config) = []
   /\ exists record,
        setup_logged (async_setup_platform DATA_KODI CONF_HOST
                        find_matching_config_entry_for_host as_dict hass config)
        = [record]
        /\ log_level record = ERROR)
  \/ (exists host entry data kodi,
         getitem config CONF_HOST = Ok host
         /\ find_matching_config_entry_for_host hass host = Ok (Some entry)
         /\ domain_data (kodi_data hass) (entry_id entry) = Ok data
         /\ getitem data DATA_KODI = Ok kodi
         /\ added (async_setup_platform DATA_KODI CONF_HOST
                     find_matching_config_entry_for_host as_dict hass config)
            = [(kodi, KodiNextUpTVEntity (entry_data entry))]
         /\ setup_logged (async_setup_platform DATA_KODI CONF_HOST
                            find_matching_config_entry_for_host as_dict hass
                            config) = []).
Proof.
  unfold async_setup_platform.
  destruct (getitem config CONF_HOST) as [host|] eqn:Eh; [|discriminate].
  cbn [bind].
  destruct (find_matching_config_entry_for_host hass host) as [[entry|]|] eqn:Ef;
    cbn [bind]; [| |discriminate].
  - destruct (add_tv_entity_cases hass (entry_id entry) (Ok (entry_data entry)))
      as [(data & kodi & c & Hd & Hk & Hc & ->)
         | [[Hd ->] | [e ->]]]; cbn [setup_outcome added setup_logged].
    + intros _. right. apply Ok_inj in Hc. subst c.
      exists host, entry, data, kodi. auto 6.
    + intros _. left. split; [reflexivity|]. eexists; split; reflexivity.
    + discriminate.
  - intros _. left. split; [reflexivity|]. eexists; split; reflexivity.
Qed.

(** X14: [async_setup_entry] never checks that the helper found an entry:
    when the data of the Kodi integration and its handle are there but
    the helper returns [None], reading [.data] raises [AttributeError]
    and nothing is added; when the data of the Kodi integration are
    missing, it logs one error, adds nothing and returns normally,
    whatever the helper returned. *)
Theorem setup_entry_without_entry_or_data
    (hass : HomeAssistant) (config_entry_id kodi_id : pystr)
    (conf : list (pystr * pystr)) (found : option ConfigEntry) :
  domain_data (own_data hass) config_entry_id = Ok conf ->
  getitem conf (lit "kodi_config_entry_id") = Ok kodi_id ->
  find_matching_config_entry hass kodi_id = Ok found ->
  (domain_data (kodi_data hass) kodi_id = Raise KeyError ->
   async_setup_entry DATA_KODI find_matching_config_entry as_dict hass
     config_entry_id
   = mkSetup [] [missing_kodi_data as_dict hass] (Ok tt))
  /\ (forall data kodi,
         domain_data (kodi_data hass) kodi_id = Ok data ->
         getitem data DATA_KODI = Ok kodi ->
         found = None ->
         async_setup_entry DATA_KODI find_matching_config_entry as_dict hass
           config_entry_id
         = mkSetup [] [] (Raise AttributeError)).
Proof.
  intros Hconf Hid Hfind. unfold async_setup_entry.
  rewrite Hconf. cbn [bind]. rewrite Hid. cbn [bind]. rewrite Hfind.
  cbn [bind]. unfold add_tv_entity. split.
  - intros ->. reflexivity.
  - intros data kodi -> -> ->. reflexivity.
Qed.

(** X15: whatever either set-up function hands to [async_add_entities] is
    at most one entity, handed over only when the function logs nothing
    and returns normally; the entity has no state yet and no rows, its
    display attribute is the template alone, and its base URL is an
    absolute URL. *)
Theorem added_entity_is_fresh
    (hass : HomeAssistant) (config_entry_id : pystr)
    (config : list (pystr * PyVal)) (r : Setup) (kodi : Kodi) (e : Entity) :
  r = async_setup_entry DATA_KODI find_matching_config_entry as_dict hass
        config_entry_id
  \/ r = async_setup_platform DATA_KODI CONF_HOST
           find_matching_config_entry_for_host as_dict hass config ->
  In (kodi, e) (added r) ->
  added r = [(kodi, e)]
  /\ setup_logged r = []
  /\ setup_outcome r = Ok tt
  /\ state e = None
  /\ data e = PList []
  /\ outcome (extra_state_attributes e)
     = Ok [(lit "data", PStr (json_dumps (PList [card_template])))]
  /\ startswith (lower (base_web_url e)) (lit "http") = true.
Proof.
  assert (Htail : forall kodi_id c,
             In (kodi, e) (added (add_tv_entity DATA_KODI as_dict hass kodi_id c)) ->
             added (add_tv_entity DATA_KODI as_dict hass kodi_id c) = [(kodi, e)]
             /\ setup_logged (add_tv_entity DATA_KODI as_dict hass kodi_id c) = []
             /\ setup_outcome (add_tv_entity DATA_KODI as_dict hass kodi_id c) = Ok tt
             /\ exists cfg, e = KodiNextUpTVEntity cfg).
  { intros kodi_id c.
    destruct (add_tv_entity_cases hass kodi_id c)
      as [(data & k & cfg & _ & _ & _ & ->) | [[_ ->] | [x ->]]];
      cbn [added setup_logged setup_outcome In]; try tauto.
    intros [[= <- <-]|[]]. eauto 6. }
  assert (Hfresh : forall cfg,
             state (KodiNextUpTVEntity cfg) = None
             /\ data (KodiNextUpTVEntity cfg) = PList []
             /\ outcome (extra_state_attributes (KodiNextUpTVEntity cfg))
                = Ok [(lit "data", PStr (json_dumps (PList [card_template])))]
             /\ startswith (lower (base_web_url (KodiNextUpTVEntity cfg)))
                  (lit "http") = true).
  { intro cfg. repeat split; try reflexivity.
    unfold KodiNextUpTVEntity.
    rewrite <- (app_nil_r (base_web_url _)).
    apply init_base_web_url_http. }
  intros [-> | ->] Hin.
  - unfold async_setup_entry in *.
    destruct (conf <- domain_data (own_data hass) config_entry_id ;;
              kodi_id <- getitem conf (lit "kodi_config_entry_id") ;;
              kodi_config_entry <- find_matching_config_entry hass kodi_id ;;
              Ok (kodi_id, kodi_config_entry)) as [[kodi_id entry]|];
      [|contradiction].
    destruct (Htail _ _ Hin) as (Ha & Hl & Ho & cfg & ->).
    destruct (Hfresh cfg) as (H1 & H2 & H3 & H4). auto 8.
  - unfold async_setup_platform in *.
    destruct (host <- getitem config CONF_HOST ;;
              config_entry <- find_matching_config_entry_for_host hass host ;;
              Ok (host, config_entry)) as [[host [entry|]]|];
      [|contradiction|contradiction].
    destruct (Htail _ _ Hin) as (Ha & Hl & Ho & cfg & ->).
    destruct (Hfresh cfg) as (H1 & H2 & H3 & H4). auto 8.
Qed.

End SensorProperties.

Lemma setup_platform_adds_one_or_logs_witness :
  (added (async_setup_platform (lit "kodi") (lit "host") entry_with_host
            plain_as_dict home [(lit "host", PStr (lit "kodi.local"))]) = []
   /\ exists record,
        setup_logged (async_setup_platform (lit "kodi") (lit "host")
                        entry_with_host plain_as_dict home
                        [(lit "host", PStr (lit "kodi.local"))])
        = [record]
        /\ log_level record = ERROR)
  \/ (exists host entry data kodi,
         getitem [(lit "host", PStr (lit "kodi.local"))] (lit "host") = Ok host
         /\ entry_with_host home host = Ok (Some entry)
         /\ domain_data (kodi_data home) (entry_id entry) = Ok data
         /\ getitem data (lit "kodi") = Ok kodi
         /\ added (async_setup_platform (lit "kodi") (lit "host") entry_with_host
                     plain_as_dict home [(lit "host", PStr (lit "kodi.local"))])
            = [(kodi, KodiNextUpTVEntity (entry_data entry))]
         /\ setup_logged (async_setup_platform (lit "kodi") (lit "host")
                            entry_with_host plain_as_dict home
                            [(lit "host", PStr (lit "kodi.local"))]) = []).
Proof.
  apply (setup_platform_adds_one_or_logs (lit "kodi") (lit "host")
           entry_with_host plain_as_dict home
           [(lit "host", PStr (lit "kodi.local"))]).
  reflexivity.
Defined.

Lemma setup_entry_without_entry_or_data_witness :
  async_setup_entry (lit "kodi") entry_with_id plain_as_dict
    home_without_kodi_data (lit "own1")
  = mkSetup [] [missing_kodi_data plain_as_dict home_without_kodi_data] (Ok tt)
  /\ async_setup_entry (lit "kodi") entry_with_id plain_as_dict
       home_without_entry (lit "own1")
     = mkSetup [] [] (Raise AttributeError).
Proof.
  split.
  - apply (proj1 (setup_entry_without_entry_or_data (lit "kodi") entry_with_id
                    plain_as_dict home_without_kodi_data (lit "own1")
                    (lit "abc123")
                    [(lit "kodi_config_entry_id", lit "abc123")]
                    (Some local_entry) eq_refl eq_refl eq_refl)).
    reflexivity.
  - apply (proj2 (setup_entry_without_entry_or_data (lit "kodi") entry_with_id
                    plain_as_dict home_without_entry (lit "own1")
                    (lit "abc123")
                    [(lit "kodi_config_entry_id", lit "abc123")]
                    None eq_refl eq_refl eq_refl)
             [(lit "kodi", pilot_answer)] pilot_answer);
      reflexivity.
Defined.

Lemma added_entity_is_fresh_witness :
  added (async_setup_entry (lit "kodi") entry_with_id plain_as_dict home
           (lit "own1"))
  = [(pilot_answer, tv)]
  /\ setup_logged (async_setup_entry (lit "kodi") entry_with_id plain_as_dict
                     home (lit "own1")) = []
  /\ setup_outcome (async_setup_entry (lit "kodi") entry_with_id plain_as_dict
                      home (lit "own1")) = Ok tt
  /\ state tv = None
  /\ data tv = PList []
  /\ outcome (extra_state_attributes tv)
     = Ok [(lit "data", PStr (json_dumps (PList [card_template])))]
  /\ startswith (lower (base_web_url tv)) (lit "http") = true.
Proof.
  apply (added_entity_is_fresh (lit "kodi") (lit "host") entry_with_id
           entry_with_host plain_as_dict home (lit "own1") []
           (async_setup_entry (lit "kodi") entry_with_id plain_as_dict home
              (lit "own1"))
           pilot_answer tv).
  - left. reflexivity.
  - left. reflexivity.
Defined.

(** * Updates and reads together *)

Lemma bind_ext {A B} (c : Res A) (f g : A -> Res B) :
  (forall x, f x = g x) -> bind c f = bind c g.
Proof. intro H. destruct c; [apply H|reflexivity]. Qed.

Lemma bind_cong {A B} (c1 c2 : Res A) (f : A -> Res B) :
  c1 = c2 -> bind c1 f = bind c2 f.
Proof. now intros ->. Qed.

Lemma card_of_base (e1 e2 : Entity) (show : PyVal) :
  base_web_url e1 = base_web_url e2 -> card_of e1 show = card_of e2 show.
Proof.
  intro Hb.
  assert (Hurl : forall v, art_url e1 v = art_url e2 v).
  { intro v. unfold art_url, get_web_url. now rewrite Hb. }
  unfold card_of.
  do 9 (apply bind_ext; intro). lazy zeta.
  do 6 (apply bind_ext; intro).
  now rewrite !Hurl.
Qed.

Lemma mapM_ext {A B} (f g : A -> Res B) (l : list A) :
  (forall x, f x = g x) -> mapM f l = mapM g l.
Proof.
  intro H. induction l as [|x l IH]; [reflexivity|].
  simpl. now rewrite H, IH.
Qed.

(** The display attribute depends on the stored rows and the base URL
    only. *)
Lemma attribute_depends_on_rows (e1 e2 : Entity) :
  data e1 = data e2 ->
  base_web_url e1 = base_web_url e2 ->
  outcome (extra_state_attributes e1) = outcome (extra_state_attributes e2).
Proof.
  intros Hd Hb. unfold extra_state_attributes. cbn [outcome].
  apply bind_cong. unfold card_json. rewrite Hd.
  apply bind_ext. intro shows. apply bind_cong.
  apply mapM_ext. intro show. now apply card_of_base.
Qed.

(** X16: an update that is not a successful non-empty fetch (the device is
    not connected, the call fails, the result carries an error or no rows,
    or an exception escapes) leaves the display attribute as it was: the
    next read gives what a read before the update gave. *)
Theorem attribute_survives_failed_update (kodi : Kodi) (self : Entity) :
  delivered self kodi = None ->
  outcome (extra_state_attributes (after (async_update kodi self)))
  = outcome (extra_state_attributes self).
Proof.
  intro Hnone. apply attribute_depends_on_rows.
  - destruct (async_update_rows_spec kodi self) as [Hd _].
    now rewrite Hnone in Hd.
  - apply async_update_frame.
Qed.

Lemma attribute_survives_failed_update_witness :
  outcome (extra_state_attributes (after (async_update crashing tv_with_pilot)))
  = outcome (extra_state_attributes tv_with_pilot).
Proof.
  apply (attribute_survives_failed_update crashing tv_with_pilot). reflexivity.
Defined.


